(** * LiteX-M2SDR gateware: composition and clock-measurement semantics

    A shallow embedding of [litex_m2sdr.py].

    - [Gateware] gives a cycle-level semantics to the logic that the nested
      class [ClkMeasurement] describes: a free-running counter in the
      measured clock's domain, latched on a request from the control
      ([sys]) domain and read back through a two-stage register.
    - [Compose] embeds the elaboration performed by [CRG.__init__],
      [BaseSoC.__init__] and [main]: resource requests, submodule
      instantiation, timing declarations and argument parsing, as a program
      in a state-and-exception monad. *)

From Stdlib Require Import ZArith List Bool String Ascii Lia.
From Stdlib Require Import DecimalString Permutation.
Import ListNotations.

Open Scope Z_scope.

(** ** Part I: cycle-level semantics of the clock measurement *)

Module Gateware.

(** *** Primitives imported from migen.genlib *)

(** Modelled from the spec: the multi-bit safe transfer of section 4.3
    ([migen.genlib.cdc.MultiReg], whose code is not under src/).  Two
    registers in series, clocked by the destination domain; the output is
    the second one ("fixed 2-stage register delay").  The value captured
    by the first stage is supplied by the caller, see [sample]. *)
Record MultiReg (A : Type) : Type := mkMultiReg { regs0 : A; regs1 : A }.
Arguments mkMultiReg {A} _ _.
Arguments regs0 {A} _.
Arguments regs1 {A} _.

Definition MultiReg_clock {A : Type} (captured : A) (m : MultiReg A) : MultiReg A :=
  mkMultiReg captured (regs0 m).

(** Modelled from the spec: first-stage capture of section 4.3, "sampled
    independently per bit (no attempt at bit-level atomicity across
    bits)".  When the source register changes from [old] to [new] on the
    very edge at which the destination samples it, every bit resolves on
    its own: bit [k] takes the new level when bit [k] of [mask] is set and
    the old level otherwise.  [mask = 0] is what an RTL simulator does. *)
Definition sample (mask old new : Z) : Z :=
  Z.lor (Z.land new mask) (Z.land old (Z.lnot mask)).

Definition sample1 (pick old new : bool) : bool := if pick then new else old.

(** Modelled from the spec: the pulse synchronizer of section 4.2
    ([migen.genlib.cdc.PulseSynchronizer], not under src/): "toggle and
    re-edge-detect".  [toggle_i] lives in the source domain and flips on
    every input pulse; it is carried into the destination domain by a
    one-bit [MultiReg]; [toggle_o_r] delays the result by one cycle and
    the output is the exclusive or of the two. *)
Record PulseSynchronizer : Type := mkPulseSynchronizer {
  toggle_i   : bool;
  toggle_regs : MultiReg bool;
  toggle_o_r : bool
}.

Definition toggle_o (p : PulseSynchronizer) : bool := regs1 (toggle_regs p).

Definition PulseSynchronizer_o (p : PulseSynchronizer) : bool :=
  xorb (toggle_o p) (toggle_o_r p).

(** Source-domain edge: [If(i, toggle_i.eq(~toggle_i))]. *)
Definition PulseSynchronizer_clock_i (i : bool) (p : PulseSynchronizer) : PulseSynchronizer :=
  mkPulseSynchronizer (if i then negb (toggle_i p) else toggle_i p)
                      (toggle_regs p) (toggle_o_r p).

(** Destination-domain edge; [captured] is what the first stage sees. *)
Definition PulseSynchronizer_clock_o (captured : bool) (p : PulseSynchronizer) : PulseSynchronizer :=
  mkPulseSynchronizer (toggle_i p)
                      (MultiReg_clock captured (toggle_regs p))
                      (toggle_o p).

(** Modelled from the spec: the asynchronous reset synchronizer of section
    4.1 ([migen.genlib.resetsync.AsyncResetSynchronizer], not under src/):
    a two-stage shift register of flip-flops that power up set, are set
    at once while the reset source is high and shift in a zero on every
    destination edge while it is low. *)
Record AsyncResetSynchronizer : Type := mkAsyncResetSynchronizer {
  rst_meta : bool;
  rst_ff   : bool
}.

Definition ars_preset : AsyncResetSynchronizer := mkAsyncResetSynchronizer true true.

Definition AsyncResetSynchronizer_clock (async_reset : bool) (a : AsyncResetSynchronizer)
  : AsyncResetSynchronizer :=
  if async_reset then ars_preset else mkAsyncResetSynchronizer false (rst_meta a).

Definition AsyncResetSynchronizer_force (async_reset : bool) (a : AsyncResetSynchronizer)
  : AsyncResetSynchronizer :=
  if async_reset then ars_preset else a.

(** The reset seen by the domain: the second flip-flop, set
    combinationally while the source is asserted. *)
Definition AsyncResetSynchronizer_rst (async_reset : bool) (a : AsyncResetSynchronizer) : bool :=
  rst_ff a || async_reset.

(** *** ClkMeasurement *)

Section ClkMeasurement.

(** [ClkMeasurement.__init__(self, clk, increment=1)]. *)
Variable increment : Z.

(** [Signal(64)]: assignments keep the low 64 bits. *)
Definition wrap64 (v : Z) : Z := v mod 2 ^ 64.

(** The registers of one instance and the level of its reset source. *)
Record state : Type := mkState {
  sys_rst     : bool;                    (* ResetSignal() of the control domain *)
  cd_counter  : AsyncResetSynchronizer;  (* AsyncResetSynchronizer(self.cd_counter, ResetSignal()) *)
  counter     : Z;                       (* counter = Signal(64) *)
  latch_value : Z;                       (* latch_value = Signal(64) *)
  latch_sync  : PulseSynchronizer;       (* PulseSynchronizer("sys", "counter") *)
  value       : MultiReg Z               (* MultiReg(latch_value, self.value.status) *)
}.

(** [self.value.status], what a read of the [value] register returns. *)
Definition value_status (s : state) : Z := regs1 (value s).

(** [self.cd_counter.rst]. *)
Definition cd_counter_rst (s : state) : bool :=
  AsyncResetSynchronizer_rst (sys_rst s) (cd_counter s).

(** The two clocks are unrelated, so a run is an arbitrary interleaving of
    their edges.  [re] is [self.latch.re] during the control cycle that
    the edge ends.  On coincident edges every register is updated from the
    values before the edge, except the first stages of the two crossings,
    which race with their source: [pick] resolves the toggle bit and
    [mask] the 64 bits of the latched value. *)
Inductive event : Type :=
| SysEdge (re : bool)
| CounterEdge
| BothEdges (re : bool) (pick : bool) (mask : Z)
| SysRst (level : bool).

(** [self.sync.counter += counter.eq(counter + increment)], with the
    domain's synchronous reset. *)
Definition next_counter (s : state) : Z :=
  if cd_counter_rst s then 0 else wrap64 (counter s + increment).

(** [self.sync.counter += If(latch_sync.o, latch_value.eq(counter))]. *)
Definition next_latch_value (s : state) : Z :=
  if cd_counter_rst s then 0
  else if PulseSynchronizer_o (latch_sync s) then counter s
  else latch_value s.

Definition step (e : event) (s : state) : state :=
  match e with
  | SysEdge re =>
      mkState (sys_rst s) (cd_counter s) (counter s) (latch_value s)
              (PulseSynchronizer_clock_i re (latch_sync s))
              (MultiReg_clock (latch_value s) (value s))
  | CounterEdge =>
      mkState (sys_rst s)
              (AsyncResetSynchronizer_clock (sys_rst s) (cd_counter s))
              (next_counter s) (next_latch_value s)
              (PulseSynchronizer_clock_o (toggle_i (latch_sync s)) (latch_sync s))
              (value s)
  | BothEdges re pick mask =>
      let ps := PulseSynchronizer_clock_i re (latch_sync s) in
      mkState (sys_rst s)
              (AsyncResetSynchronizer_clock (sys_rst s) (cd_counter s))
              (next_counter s) (next_latch_value s)
              (PulseSynchronizer_clock_o
                 (sample1 pick (toggle_i (latch_sync s)) (toggle_i ps)) ps)
              (MultiReg_clock (sample mask (latch_value s) (next_latch_value s)) (value s))
  | SysRst level =>
      mkState level (AsyncResetSynchronizer_force level (cd_counter s))
              (counter s) (latch_value s) (latch_sync s) (value s)
  end.

Fixpoint run (tr : list event) (s : state) : state :=
  match tr with
  | [] => s
  | e :: tr' => run tr' (step e s)
  end.

(** Power-up: every register at its reset value, the reset flip-flops
    set, the control domain still held in reset. *)
Definition power_on : state :=
  mkState true ars_preset 0 0
          (mkPulseSynchronizer false (mkMultiReg false false) false)
          (mkMultiReg 0 0).

(** *** Observations on schedules *)

Definition ticks_counter (e : event) : bool :=
  match e with CounterEdge | BothEdges _ _ _ => true | _ => false end.

Definition ticks_sys (e : event) : bool :=
  match e with SysEdge _ | BothEdges _ _ _ => true | _ => false end.

(** The edge carries a latch request ([latch.re] high). *)
Definition is_request (e : event) : bool :=
  match e with SysEdge re | BothEdges re _ _ => re | _ => false end.

Definition is_sys_rst (e : event) : bool :=
  match e with SysRst _ => true | _ => false end.

Definition counter_edges (tr : list event) : nat :=
  List.length (filter ticks_counter tr).

Definition sys_edges (tr : list event) : nat :=
  List.length (filter ticks_sys tr).

Definition quiet (tr : list event) : bool := forallb (fun e => negb (is_request e)) tr.

(** The counter-domain edges at which [latch_sync.o] is high, that is at
    which the latch statement takes its branch.  Each is reported with its
    latency: the number of counter edges from the latest request (an edge
    coinciding with the request included) up to and including it. *)
Fixpoint pulses (since : nat) (tr : list event) (s : state) : list nat :=
  match tr with
  | [] => []
  | e :: tr' =>
      let since' := ((if is_request e then 0 else since)
                     + (if ticks_counter e then 1 else 0))%nat in
      (if ticks_counter e && PulseSynchronizer_o (latch_sync s) then [since'] else [])
        ++ pulses since' tr' (step e s)
  end.

(** The values written into [latch_value] along a run, in order: zero by
    the domain reset, the counter by the latch. *)
Fixpoint latched (tr : list event) (s : state) : list Z :=
  match tr with
  | [] => []
  | e :: tr' =>
      (if ticks_counter e then
         if cd_counter_rst s then [0]
         else if PulseSynchronizer_o (latch_sync s) then [counter s]
         else []
       else [])
        ++ latched tr' (step e s)
  end.

Definition requests (tr : list event) : nat := List.length (filter is_request tr).



(** A request edge followed by at least four counter edges without a
    further request. *)
Definition well_spaced (seg : event * list event) : Prop :=
  is_request (fst seg) = true /\ quiet (snd seg) = true
  /\ (4 <= counter_edges (snd seg))%nat.

(** A schedule of latch requests: each request edge is followed by a
    stretch without requests. *)
Definition schedule (segs : list (event * list event)) : list event :=
  flat_map (fun seg => fst seg :: snd seg) segs.

Definition no_sys_rst (tr : list event) : bool :=
  forallb (fun e => negb (is_sys_rst e)) tr.

Definition no_sys_edge (tr : list event) : bool :=
  forallb (fun e => negb (ticks_sys e)) tr.


(** *** Invariants of a run *)

(** A value a [Signal(64)] can hold. *)
Definition fits64 (v : Z) : Prop := 0 <= v < 2 ^ 64.

(** Every 64-bit register of the instance holds such a value. *)
Definition registers_fit (s : state) : Prop :=
  fits64 (counter s) /\ fits64 (latch_value s)
  /\ fits64 (regs0 (value s)) /\ fits64 (regs1 (value s)).

(** The reset source is low and its release has passed both flip-flops
    of the reset synchronizer. *)
Definition released (s : state) : bool :=
  negb (sys_rst s) && negb (rst_meta (cd_counter s)) && negb (rst_ff (cd_counter s)).

End ClkMeasurement.

(** *** Two runs of an instance with the default [increment=1] *)

(** Reset is released, the counter runs, a latch request is written and
    its pulse has reached the output of the synchronizer: the next counter
    edge writes the counter (5) into [latch_value]. *)
Definition latch_pending : list event :=
  [SysRst false; CounterEdge; CounterEdge; CounterEdge; CounterEdge; CounterEdge;
   SysEdge true; CounterEdge; CounterEdge].

(** That counter edge coincides with a control edge whose first stage
    captures bit 0 of the new value and the old level of every other bit. *)
Definition torn_transfer : list event :=
  latch_pending ++ [BothEdges false false 1; SysEdge false].

(** The latch lands on a counter edge of its own, after which the measured
    clock stops. *)
Definition latch_landed : list event := latch_pending ++ [CounterEdge].

(** Two latch requests written while the measured clock stands still,
    with one idle control cycle between them. *)
Definition two_requests : list event := [SysEdge true; SysEdge false; SysEdge true].

End Gateware.

(** ** Part II: elaboration of the SoC *)

Module Compose.

Open Scope string_scope.

(** *** Exceptions and the elaboration monad *)

(** The exceptions elaboration can raise: a resource request the platform
    cannot serve, a missing key of a [dict], an empty [request_all]. *)
Inductive exn : Type :=
| ConstraintError (name : string) (number : option Z)
| KeyError (key : Z)
| ValueError (name : string).

(** A computation either returns a value or raises; both outcomes carry
    the object under construction as it stands at that point. *)
Inductive outcome (S A : Type) : Type :=
| Ok (a : A) (s : S)
| Raise (e : exn) (s : S).
Arguments Ok {S A} _ _.
Arguments Raise {S A} _ _.

Definition M (S A : Type) : Type := S -> outcome S A.

Definition ret {S A : Type} (a : A) : M S A := fun s => Ok a s.

Definition bind {S A B : Type} (c : M S A) (k : A -> M S B) : M S B :=
  fun s => match c s with
           | Ok a s' => k a s'
           | Raise e s' => Raise e s'
           end.

Definition raise {S A : Type} (e : exn) : M S A := fun s => Raise e s.

Definition get {S : Type} : M S S := fun s => Ok s s.

Definition modify {S : Type} (f : S -> S) : M S unit := fun s => Ok tt (f s).

Notation "x <- c ;; k" := (bind c (fun x => k))
  (at level 61, c at next level, right associativity).
Notation "c ;; k" := (bind c (fun _ => k))
  (at level 61, right associativity).

Definition when {S : Type} (b : bool) (c : M S unit) : M S unit :=
  if b then c else ret tt.

(** [str(n)] of a Python [int], as an f-string field formats it. *)
Definition str (n : Z) : string := NilZero.string_of_int (Z.to_int n).

(** *** What the composed object is made of *)

(** A platform resource: its name and number. *)
Definition resource : Type := (string * Z)%type.

(** A clock domain is known by its name; its clock signal is [<name>_clk]. *)
Definition domain : Type := string.
Definition clk (cd : domain) : string := cd ++ "_clk".

(** Registers a module publishes on the control bus. *)
Inductive csr : Type :=
| CSR (size : Z)          (* write-triggered strobe: [r], [re] *)
| CSRStatus (size : Z)    (* read-only *)
| CSRStorage (size : Z).

(** Instances of the cross-domain primitives, with the domains they join. *)
Inductive synchronizer_kind : Type :=
| AsyncResetSynchronizer
| PulseSynchronizer
| MultiReg.

Record synchronizer : Type := mkSynchronizer {
  sync_kind : synchronizer_kind;
  source_domain : domain;
  destination_domain : domain;
  payload_width : Z
}.

(** [class CRG(LiteXModule)]. *)
Record CRG : Type := mkCRG {
  crg_clkin      : resource * Z;            (* pll.register_clkin(clk100, 100e6) *)
  crg_clkouts    : list (domain * Z);       (* pll.create_clkout(cd, freq) *)
  crg_idelayctrl : domain;
  crg_eth_clkout : option (domain * Z * Z)  (* cd_eth_ref, freq, margin *)
}.

(** [S7PCIEPHY(platform, pads, data_width, bar0_size, cd)] and the entries
    of [update_config]. *)
Record S7PCIEPHY : Type := mkS7PCIEPHY {
  phy_pads   : resource;
  data_width : Z;
  bar0_size  : Z;
  phy_cd     : domain;
  phy_config : list (string * string)
}.

(** The keyword arguments of [self.add_pcie]. *)
Record PCIe : Type := mkPCIe {
  address_width         : Z;
  ndmas                 : Z;
  with_dma_buffering    : bool;
  dma_buffering_depth   : Z;
  with_dma_loopback     : bool;
  with_dma_synchronizer : bool;
  with_msi              : bool
}.

Record QPLLSettings : Type := mkQPLLSettings {
  refclksel : Z; fbdiv : Z; fbdiv_45 : Z; refclk_div : Z
}.

Record A7_1000BASEX : Type := mkA7_1000BASEX {
  qpll_channel : Z;
  data_pads    : resource;
  eth_sys_clk_freq : Z;
  rx_polarity  : Z;
  tx_polarity  : Z
}.

(** [class ClkMeasurement(LiteXModule)]: its public registers, its private
    clock domain and the primitives that join it to the control domain. *)
Record ClkMeasurement : Type := mkClkMeasurement {
  measured_clk  : resource;
  increment     : Z;
  csrs          : list (string * csr);
  cd_counter    : domain;
  counter_width : Z;
  synchronizers : list synchronizer
}.

Inductive module : Type :=
| ModCRG (c : CRG)
| ModSI5351 (pads : resource) (sequences : list string) (sys_clk_freq : Z)
| ModPWM (pads : resource) (default_enable default_width default_period : Z)
| ModJTAGBone
| ModLedChaser (pads : list resource) (sys_clk_freq : Z)
| ModICAP (reload : bool) (timing : option (Z * string))
| ModXADC
| ModDNA (timing : option (Z * string))
| ModS7PCIEPHY (p : S7PCIEPHY)
| ModPCIe (phy : string) (p : PCIe)
| ModQPLL (gtgrefclk0 : string) (qpllsettings0 : QPLLSettings)
| ModA7_1000BASEX (p : A7_1000BASEX)
| ModEtherbone (phy : string) (ip_address : string)
| ModClkMeasurement (m : ClkMeasurement).

(** The Tcl lines the source appends to
    [platform.toolchain.pre_placement_commands]. *)
Inductive command : Type :=
| ResetPropertyLoc
| SetPropertyLoc
| SetClockGroups (i : Z) (other : string).

(** The text of each, as the Python string literal or f-string evaluates
    (a doubled brace in an f-string is one brace). *)
Definition render (c : command) : string :=
  match c with
  | ResetPropertyLoc =>
      "reset_property LOC [get_cells -hierarchical -filter {{NAME=~pcie_s7/*gtp_channel.gtpe2_channel_i}}]"
  | SetPropertyLoc =>
      "set_property LOC GTPE2_CHANNEL_X0Y4 [get_cells -hierarchical -filter {{NAME=~pcie_s7/*gtp_channel.gtpe2_channel_i}}]"
  | SetClockGroups i other =>
      "set_clock_groups -group [get_clocks {{*s7pciephy_clkout" ++ str i
        ++ "}}] -group [get_clocks " ++ other ++ "] -asynchronous"
  end.

(** The object under construction: the platform's resource manager and
    constraint lists, and the SoC's submodules in order of creation. *)
Record soc : Type := mkSoc {
  available  : list resource;
  matched    : list resource;
  period_constraints     : list (string * Z);        (* clock, period in ns *)
  false_path_constraints : list (string * string);
  pre_placement_commands : list command;
  platform_commands      : list string;
  submodules : list (string * module);
  comb       : list (resource * resource)            (* pad.eq(pad) *)
}.

Definition Platform (io : list resource) : soc :=
  mkSoc io [] [] [] [] [] [] [].

(** *** The platform's resource manager *)

Definition matches (name : string) (number : option Z) (r : resource) : bool :=
  String.eqb (fst r) name
  && match number with None => true | Some n => Z.eqb (snd r) n end.

(** [list.remove]: drops the first occurrence. *)
Fixpoint remove_first (name : string) (number : option Z) (l : list resource)
  : list resource :=
  match l with
  | [] => []
  | r :: l' => if matches name number r then l' else r :: remove_first name number l'
  end.

(** [platform.request(name, number)]: the first available resource of that
    name (and number, when one is given) moves to the matched ones. *)
Definition request (name : string) (number : option Z) : M soc resource :=
  fun s =>
    match find (matches name number) (available s) with
    | Some r =>
        Ok r (mkSoc (remove_first name number (available s)) (matched s ++ [r])
                    (period_constraints s) (false_path_constraints s)
                    (pre_placement_commands s) (platform_commands s)
                    (submodules s) (comb s))
    | None => Raise (ConstraintError name number) s
    end.

(** [platform.lookup_request(name)]: a resource requested earlier. *)
Definition lookup_request (name : string) (number : option Z) : M soc resource :=
  fun s =>
    match find (matches name number) (matched s) with
    | Some r => Ok r s
    | None => Raise (ConstraintError name number) s
    end.

(** The loop of [platform.request_all]: number 0, 1, ... until a request
    fails.  Every round consumes a resource, so [fuel] above the number of
    available ones is never exhausted. *)
Fixpoint request_all_loop (fuel : nat) (name : string) (r : list resource)
  : M soc (list resource) :=
  match fuel with
  | O => ret r
  | S fuel' =>
      fun s =>
        match request name (Some (Z.of_nat (List.length r))) s with
        | Ok x s' => request_all_loop fuel' name (r ++ [x]) s'
        | Raise _ _ => Ok r s
        end
  end.

Definition request_all (name : string) : M soc (list resource) :=
  s <- get ;;
  r <- request_all_loop (S (List.length (available s))) name [] ;;
  match r with
  | [] => raise (ValueError name)
  | _ => ret r
  end.

Definition add_period_constraint (c : string) (period : Z) : M soc unit :=
  modify (fun s => mkSoc (available s) (matched s)
                         (period_constraints s ++ [(c, period)])
                         (false_path_constraints s) (pre_placement_commands s)
                         (platform_commands s) (submodules s) (comb s)).

Definition add_false_path_constraints (a b : string) : M soc unit :=
  modify (fun s => mkSoc (available s) (matched s) (period_constraints s)
                         (false_path_constraints s ++ [(a, b)])
                         (pre_placement_commands s)
                         (platform_commands s) (submodules s) (comb s)).

Definition pre_placement_append (c : command) : M soc unit :=
  modify (fun s => mkSoc (available s) (matched s) (period_constraints s)
                         (false_path_constraints s)
                         (pre_placement_commands s ++ [c])
                         (platform_commands s) (submodules s) (comb s)).

Definition add_platform_command (c : string) : M soc unit :=
  modify (fun s => mkSoc (available s) (matched s) (period_constraints s)
                         (false_path_constraints s) (pre_placement_commands s)
                         (platform_commands s ++ [c]) (submodules s) (comb s)).

(** [self.<name> = <module>]. *)
Definition add_module (name : string) (m : module) : M soc unit :=
  modify (fun s => mkSoc (available s) (matched s) (period_constraints s)
                         (false_path_constraints s) (pre_placement_commands s)
                         (platform_commands s) (submodules s ++ [(name, m)]) (comb s)).

(** [self.<name>.update_config(entries)] of a PCIe PHY. *)
Definition update_module_config (name : string) (entries : list (string * string))
  (nm : string * module) : string * module :=
  match snd nm with
  | ModS7PCIEPHY p =>
      if String.eqb (fst nm) name
      then (fst nm, ModS7PCIEPHY (mkS7PCIEPHY (phy_pads p) (data_width p) (bar0_size p)
                                              (phy_cd p) (phy_config p ++ entries)))
      else nm
  | _ => nm
  end.

Definition update_config (name : string) (entries : list (string * string)) : M soc unit :=
  modify (fun s => mkSoc (available s) (matched s) (period_constraints s)
                         (false_path_constraints s) (pre_placement_commands s)
                         (platform_commands s)
                         (map (update_module_config name entries) (submodules s))
                         (comb s)).

Definition add_comb (dst src : resource) : M soc unit :=
  modify (fun s => mkSoc (available s) (matched s) (period_constraints s)
                         (false_path_constraints s) (pre_placement_commands s)
                         (platform_commands s) (submodules s) (comb s ++ [(dst, src)])).

(** *** CRG *)

(** [CRG.__init__(self, platform, sys_clk_freq, with_ethernet)]. *)
Definition CRG_init (sys_clk_freq : Z) (with_ethernet : bool) : M soc CRG :=
  clk100 <- request "clk100" None ;;
  ret (mkCRG (clk100, 100000000)
             [("sys", sys_clk_freq); ("idelay", 200000000)]
             "idelay"
             (if with_ethernet then Some ("eth_ref", 156250000, 0) else None)).

(** *** ClkMeasurement *)

(** [ClkMeasurement.__init__(self, clk, increment=1)] for the instance
    assigned to [self.<owner>].  Each instance creates a clock domain named
    [counter] of its own; the name is qualified by the owner to tell the
    four apart. *)
Definition ClkMeasurement_init (owner : string) (clk_pad : resource) (increment : Z)
  : ClkMeasurement :=
  let cd := owner ++ "_counter" in
  mkClkMeasurement clk_pad increment
    [("latch", CSR 1); ("value", CSRStatus 64)]
    cd 64
    [ mkSynchronizer AsyncResetSynchronizer "sys" cd 1;
      mkSynchronizer PulseSynchronizer "sys" cd 1;
      mkSynchronizer MultiReg cd "sys" 64 ].

(** [self.<owner> = ClkMeasurement(clk=platform.request(<pad>))]. *)
Definition add_clk_measurement (owner pad : string) : M soc unit :=
  c <- request pad None ;;
  add_module owner (ModClkMeasurement (ClkMeasurement_init owner c 1)).

(** *** BaseSoC *)

(** The keyword arguments of [BaseSoC.__init__]. *)
Record args : Type := mkArgs {
  sys_clk_freq  : Z;
  with_pcie     : bool;
  pcie_lanes    : Z;
  with_ethernet : bool;
  ethernet_sfp  : Z;
  with_jtagbone : bool
}.

(** Their default values. *)
Definition defaults : args := mkArgs 125000000 true 1 true 0 true.

(** [{1: 64, 4: 128}[pcie_lanes]]. *)
Definition data_width_of (lanes : Z) : M soc Z :=
  if Z.eqb lanes 1 then ret 64
  else if Z.eqb lanes 4 then ret 128
  else raise (KeyError lanes).

(** The loop over [range(4)] of the PCIe section. *)
Definition clock_groups (i : Z) : M soc unit :=
  pre_placement_append (SetClockGroups i "       dna_clk") ;;
  pre_placement_append (SetClockGroups i "      jtag_clk") ;;
  pre_placement_append (SetClockGroups i "      icap_clk").

Fixpoint for_each {S : Type} (l : list Z) (body : Z -> M S unit) : M S unit :=
  match l with
  | [] => ret tt
  | i :: l' => body i ;; for_each l' body
  end.

Definition pcie (a : args) : M soc unit :=
  (* the arguments of S7PCIEPHY are evaluated in order: pads, then width *)
  pads <- request ("pcie_x" ++ str (pcie_lanes a)) None ;;
  width <- data_width_of (pcie_lanes a) ;;
  add_module "pcie_phy" (ModS7PCIEPHY (mkS7PCIEPHY pads width 131072 "sys" [])) ;;
  when (Z.eqb (pcie_lanes a) 1)
       (pre_placement_append ResetPropertyLoc ;;
        pre_placement_append SetPropertyLoc) ;;
  update_config "pcie_phy"
       [("Base_Class_Menu", "Wireless_controller");
        ("Sub_Class_Interface_Menu", "RF_controller");
        ("Class_Code_Base", "0D");
        ("Class_Code_Sub", "10")] ;;
  add_module "pcie"
    (ModPCIe "pcie_phy" (mkPCIe 32 1 true 8192 true true true)) ;;
  for_each [0; 1; 2; 3] clock_groups.

Definition etherbone (a : args) : M soc unit :=
  add_module "qpll" (ModQPLL (clk "eth_ref") (mkQPLLSettings 7 4 4 1)) ;;
  add_platform_command "set_property SEVERITY {{Warning}} [get_drc_checks REQP-49]" ;;
  pads <- request "sfp" (Some (ethernet_sfp a)) ;;
  add_module "ethphy"
    (ModA7_1000BASEX (mkA7_1000BASEX 0 pads (sys_clk_freq a) 1 0)) ;;
  add_module "etherbone" (ModEtherbone "ethphy" "192.168.1.50").

(** [BaseSoC.__init__], statement by statement. *)
Definition BaseSoC_init (a : args) : M soc unit :=
  (* Clocking *)
  crg <- CRG_init (sys_clk_freq a) (with_ethernet a) ;;
  add_module "crg" (ModCRG crg) ;;
  (* SI5351 clock generator *)
  i2c <- request "si5351_i2c" None ;;
  add_module "si5351"
    (ModSI5351 i2c ["i2c_program_38p4"; "i2c_program_38p4"] (sys_clk_freq a)) ;;
  pwm <- request "si5351_pwm" None ;;
  add_module "si5351_pwm" (ModPWM pwm 1 1024 2048) ;;
  (* JTAGBone *)
  when (with_jtagbone a)
       (add_module "jtagbone" ModJTAGBone ;;
        add_period_constraint (clk "jtag") 50 ;;
        add_false_path_constraints (clk "jtag") (clk "sys")) ;;
  (* Leds *)
  leds <- request_all "user_led" ;;
  add_module "leds" (ModLedChaser leds (sys_clk_freq a)) ;;
  (* ICAP, XADC, DNA *)
  add_module "icap" (ModICAP true (Some (sys_clk_freq a, clk "sys"))) ;;
  add_module "xadc" ModXADC ;;
  add_module "dna" (ModDNA (Some (sys_clk_freq a, clk "sys"))) ;;
  (* PCIe *)
  when (with_pcie a) (pcie a) ;;
  (* Etherbone *)
  when (with_ethernet a) (etherbone a) ;;
  (* Clk measurements *)
  add_clk_measurement "si5351_clk0_measurement" "si5351_clk0" ;;
  add_clk_measurement "si5351_clk1_measurement" "si5351_clk1" ;;
  add_clk_measurement "si5351_clk2_measurement" "si5351_clk2" ;;
  add_clk_measurement "si5351_clk3_measurement" "si5351_clk3" ;;
  dbg <- request "debug" None ;;
  c0 <- lookup_request "si5351_clk0" None ;;
  add_comb dbg c0.

(** [BaseSoC(...)]: a fresh [Platform()] elaborated by [__init__]. *)
Definition BaseSoC (io : list resource) (a : args) : outcome soc unit :=
  BaseSoC_init a (Platform io).

(** *** Views of the composed object *)

Definition has_module (name : string) (s : soc) : bool :=
  existsb (fun nm => String.eqb (fst nm) name) (submodules s).

Definition pcie_active (s : soc) : bool := has_module "pcie_phy" s.
Definition ethernet_active (s : soc) : bool := has_module "ethphy" s.

Definition measurements (s : soc) : list (string * ClkMeasurement) :=
  flat_map (fun nm => match snd nm with
                      | ModClkMeasurement m => [(fst nm, m)]
                      | _ => []
                      end) (submodules s).

Definition pcie_phys (s : soc) : list S7PCIEPHY :=
  flat_map (fun nm => match snd nm with ModS7PCIEPHY p => [p] | _ => [] end)
           (submodules s).

Definition pcies (s : soc) : list PCIe :=
  flat_map (fun nm => match snd nm with ModPCIe _ p => [p] | _ => [] end)
           (submodules s).

(** The registers a module publishes ([get_csrs]). *)
Definition get_csrs (m : ClkMeasurement) : list (string * csr) := csrs m.









(** *** main *)

(** The options [main] adds to its parser, and [-h/--help]. *)
Inductive action : Type :=
| Help | Build | Load | Flash | Driver | WithPcie | WithEthernet | EthernetSfp.

(** The [Namespace] that [parse_args] returns. *)
Record namespace : Type := mkNamespace {
  ns_build : bool; ns_load : bool; ns_flash : bool; ns_driver : bool;
  ns_with_pcie : bool; ns_with_ethernet : bool; ns_ethernet_sfp : Z
}.

(** Every [store_true] option defaults to [False], [--ethernet-sfp] to 0. *)
Definition namespace_defaults : namespace :=
  mkNamespace false false false false false false 0.

(** How argparse reads one command-line word before consuming anything. *)
Inductive token : Type :=
| Optional (a : action) (explicit_arg : option string)  (* an option, with the text after [=] *)
| Argument                                              (* does not look like an option *)
| DashDash                                              (* the word [--] *)
| Unrecognized                                          (* looks like an option, matches none *)
| Ambiguous.                                            (* abbreviates several options *)

Inductive parsed : Type :=
| Parsed (ns : namespace)
| HelpExit       (* usage printed, [SystemExit(0)] *)
| UsageError.    (* [parser.error]: [SystemExit(2)] *)

Definition store_true (a : action) (ns : namespace) : namespace :=
  match a with
  | Build => mkNamespace true (ns_load ns) (ns_flash ns) (ns_driver ns)
                         (ns_with_pcie ns) (ns_with_ethernet ns) (ns_ethernet_sfp ns)
  | Load => mkNamespace (ns_build ns) true (ns_flash ns) (ns_driver ns)
                        (ns_with_pcie ns) (ns_with_ethernet ns) (ns_ethernet_sfp ns)
  | Flash => mkNamespace (ns_build ns) (ns_load ns) true (ns_driver ns)
                         (ns_with_pcie ns) (ns_with_ethernet ns) (ns_ethernet_sfp ns)
  | Driver => mkNamespace (ns_build ns) (ns_load ns) (ns_flash ns) true
                          (ns_with_pcie ns) (ns_with_ethernet ns) (ns_ethernet_sfp ns)
  | WithPcie => mkNamespace (ns_build ns) (ns_load ns) (ns_flash ns) (ns_driver ns)
                            true (ns_with_ethernet ns) (ns_ethernet_sfp ns)
  | WithEthernet => mkNamespace (ns_build ns) (ns_load ns) (ns_flash ns) (ns_driver ns)
                                (ns_with_pcie ns) true (ns_ethernet_sfp ns)
  | Help | EthernetSfp => ns
  end.

Definition store_sfp (v : Z) (ns : namespace) : namespace :=
  mkNamespace (ns_build ns) (ns_load ns) (ns_flash ns) (ns_driver ns)
              (ns_with_pcie ns) (ns_with_ethernet ns) v.

(** [comopts = parser.add_mutually_exclusive_group()]: an option of the
    group is refused once the other one has been seen. *)
Definition conflicts (a : action) (ns : namespace) : bool :=
  match a with
  | WithPcie => ns_with_ethernet ns
  | WithEthernet => ns_with_pcie ns
  | _ => false
  end.

Section Parser.

(** argparse's reading of a single word for this parser (exact option
    strings, [--opt=value], unambiguous abbreviations) and Python's
    [int] on a string are taken as given. *)
Variable parse_optional : string -> token.
Variable int : string -> option Z.

(** Words are classified first; everything from [--] on is positional. *)
Fixpoint classify (argv : list string) : list (string * token) :=
  match argv with
  | [] => []
  | w :: argv' =>
      if String.eqb w "--"
      then (w, DashDash) :: map (fun w' => (w', Argument)) argv'
      else (w, parse_optional w) :: classify argv'
  end.

(** [type=int, choices=[0, 1]]. *)
Definition sfp_value (v : string) : option Z :=
  match int v with
  | Some n => if Z.eqb n 0 || Z.eqb n 1 then Some n else None
  | None => None
  end.

(** The options are then consumed from left to right; words that no option
    takes are collected ([extras]) and refused at the end. *)
Fixpoint consume (toks : list (string * token)) (ns : namespace) (extras : bool)
  : parsed :=
  match toks with
  | [] => if extras then UsageError else Parsed ns
  | (_, Optional a explicit_arg) :: rest =>
      match a with
      | Help =>
          match explicit_arg with None => HelpExit | Some _ => UsageError end
      | EthernetSfp =>
          match explicit_arg with
          | Some v =>
              match sfp_value v with
              | Some n => consume rest (store_sfp n ns) extras
              | None => UsageError
              end
          | None =>
              match rest with
              | (v, Argument) :: rest' =>
                  match sfp_value v with
                  | Some n => consume rest' (store_sfp n ns) extras
                  | None => UsageError
                  end
              | _ => UsageError
              end
          end
      | _ =>
          match explicit_arg with
          | Some _ => UsageError
          | None =>
              if conflicts a ns then UsageError
              else consume rest (store_true a ns) extras
          end
      end
  | (_, Ambiguous) :: _ => UsageError
  | _ :: rest => consume rest ns true
  end.

Definition is_ambiguous (t : string * token) : bool :=
  match snd t with Ambiguous => true | _ => false end.

(** [parser.parse_args()] on the words of the command line. *)
Definition parse_args (argv : list string) : parsed :=
  let toks := classify argv in
  if existsb is_ambiguous toks then UsageError
  else consume toks namespace_defaults false.

(** How [main] ends, up to the construction of the SoC: the process exits
    from the parser, [BaseSoC] raises, or the SoC is handed to the
    builder. *)
Inductive ending : Type :=
| SystemExit (code : Z)
| Raised (e : exn) (s : soc)
| Built (ns : namespace) (s : soc).

Definition main (io : list resource) (argv : list string) : ending :=
  match parse_args argv with
  | UsageError => SystemExit 2
  | HelpExit => SystemExit 0
  | Parsed ns =>
      match BaseSoC io (mkArgs (sys_clk_freq defaults) (ns_with_pcie ns)
                               (pcie_lanes defaults) (ns_with_ethernet ns)
                               (ns_ethernet_sfp ns) (with_jtagbone defaults)) with
      | Ok _ s => Built ns s
      | Raise e s => Raised e s
      end
  end.

End Parser.

(** The option strings in the order the parser registers them. *)
Definition option_strings : list (string * action) :=
  [("-h", Help); ("--help", Help); ("--build", Build); ("--load", Load);
   ("--flash", Flash); ("--driver", Driver); ("--with-pcie", WithPcie);
   ("--with-ethernet", WithEthernet); ("--ethernet-sfp", EthernetSfp)].

(** The part of a word before and after its first [=]. *)
Fixpoint split_eq (w : string) : string * option string :=
  match w with
  | EmptyString => (EmptyString, None)
  | String c w' =>
      if Ascii.eqb c "="%char then (EmptyString, Some w')
      else let (n, v) := split_eq w' in (String c n, v)
  end.

Definition lookup_option (w : string) : option action :=
  option_map snd (find (fun o => String.eqb (fst o) w) option_strings).

(** The actions whose long option string starts with [w]; an action is
    listed once per matching string. *)
Definition abbreviates (w : string) : list action :=
  map snd (filter (fun o => String.prefix w (fst o)) option_strings).

Definition is_digit (c : ascii) : bool :=
  N.leb 48 (N_of_ascii c) && N.leb (N_of_ascii c) 57.

Fixpoint all_digits (w : string) : bool :=
  match w with
  | EmptyString => true
  | String c w' => is_digit c && all_digits w'
  end.

Fixpoint has_space (w : string) : bool :=
  match w with
  | EmptyString => false
  | String c w' => Ascii.eqb c " "%char || has_space w'
  end.

(** The reading of one word by the parser of [main], for words spelled
    with two dashes, [-h], and words that are no options; clusters of
    one-dash flags are left unrecognized. *)
Definition parse_optional (w : string) : token :=
  match w with
  | String "-" EmptyString => Argument
  | String "-" rest =>
      match lookup_option w with
      | Some a => Optional a None
      | None =>
          let (name, explicit_arg) := split_eq w in
          match explicit_arg, lookup_option name with
          | Some v, Some a => Optional a (Some v)
          | _, _ =>
              if String.prefix "--" w then
                match abbreviates name with
                | [a] => Optional a explicit_arg
                | _ :: _ :: _ => Ambiguous
                | [] => if has_space w then Argument else Unrecognized
                end
              else if all_digits rest then Argument
              else if has_space w then Argument
              else Unrecognized
          end
      end
  | _ => Argument
  end.

(** [int] restricted to plain decimal numerals, optionally signed. *)
Definition int_decimal (v : string) : option Z :=
  option_map Z.of_int (NilZero.int_of_string v).

(** *** Reference values for the statements below *)

Definition expected_false_paths (a : args) : list (string * string) :=
  if with_jtagbone a then [(clk "jtag", clk "sys")] else [].

Definition expected_commands (a : args) : list command :=
  if with_pcie a then
    (if Z.eqb (pcie_lanes a) 1 then [ResetPropertyLoc; SetPropertyLoc] else [])
      ++ flat_map (fun i => [SetClockGroups i "       dna_clk";
                             SetClockGroups i "      jtag_clk";
                             SetClockGroups i "      icap_clk"]) [0; 1; 2; 3]
  else [].

Definition pcie_config : list (string * string) :=
  [("Base_Class_Menu", "Wireless_controller");
   ("Sub_Class_Interface_Menu", "RF_controller");
   ("Class_Code_Base", "0D");
   ("Class_Code_Sub", "10")].

Definition measurement_names : list string :=
  ["si5351_clk0_measurement"; "si5351_clk1_measurement";
   "si5351_clk2_measurement"; "si5351_clk3_measurement"].




Definition is_with_pcie (t : string * token) : bool :=
  match snd t with Optional WithPcie _ => true | _ => false end.

Definition is_with_ethernet (t : string * token) : bool :=
  match snd t with Optional WithEthernet _ => true | _ => false end.

(** A platform description offering every resource the source requests
    (the platform file itself is not part of src/), with pads for one,
    two and four PCIe lanes. *)
Definition board_io : list resource :=
  [("clk100", 0); ("user_led", 0); ("si5351_i2c", 0); ("si5351_pwm", 0);
   ("si5351_clk0", 0); ("si5351_clk1", 0); ("si5351_clk2", 0); ("si5351_clk3", 0);
   ("pcie_x1", 0); ("pcie_x2", 0); ("pcie_x4", 0);
   ("sfp", 0); ("sfp", 1); ("debug", 0)].


(** The object [BaseSoC] leaves behind, returned or abandoned. *)
Definition composed (io : list resource) (a : args) : soc :=
  match BaseSoC io a with
  | Ok _ s => s
  | Raise _ s => s
  end.

(** *** The shape of a composed SoC *)

(** The pads a composition obtained from the platform. *)
Record pads : Type := mkPads {
  pad_clk100 : resource;
  pad_i2c    : resource;
  pad_pwm    : resource;
  pad_leds   : list resource;
  pad_pcie   : resource;
  pad_sfp    : resource;
  pad_clk0   : resource;
  pad_clk1   : resource;
  pad_clk2   : resource;
  pad_clk3   : resource;
  pad_debug  : resource
}.

(** The requests [BaseSoC.__init__] makes, in the order it makes them. *)
Definition expected_matched (a : args) (p : pads) : list resource :=
  ([pad_clk100 p; pad_i2c p; pad_pwm p] ++ pad_leds p
   ++ (if with_pcie a then [pad_pcie p] else [])
   ++ (if with_ethernet a then [pad_sfp p] else [])
   ++ [pad_clk0 p; pad_clk1 p; pad_clk2 p; pad_clk3 p; pad_debug p])%list.

(** The attributes [BaseSoC.__init__] assigns, in the order it assigns
    them. *)
Definition expected_submodules (a : args) (p : pads) : list (string * module) :=
  ([("crg", ModCRG (mkCRG (pad_clk100 p, 100000000)
                          [("sys", sys_clk_freq a); ("idelay", 200000000)]
                          "idelay"
                          (if with_ethernet a then Some ("eth_ref", 156250000, 0) else None)));
    ("si5351", ModSI5351 (pad_i2c p) ["i2c_program_38p4"; "i2c_program_38p4"]
                         (sys_clk_freq a));
    ("si5351_pwm", ModPWM (pad_pwm p) 1 1024 2048)]
   ++ (if with_jtagbone a then [("jtagbone", ModJTAGBone)] else [])
   ++ [("leds", ModLedChaser (pad_leds p) (sys_clk_freq a));
       ("icap", ModICAP true (Some (sys_clk_freq a, "sys_clk")));
       ("xadc", ModXADC);
       ("dna", ModDNA (Some (sys_clk_freq a, "sys_clk")))]
   ++ (if with_pcie a
       then [("pcie_phy",
              ModS7PCIEPHY (mkS7PCIEPHY (pad_pcie p)
                                        (if Z.eqb (pcie_lanes a) 1 then 64 else 128)
                                        131072 "sys" pcie_config));
             ("pcie", ModPCIe "pcie_phy" (mkPCIe 32 1 true 8192 true true true))]
       else [])
   ++ (if with_ethernet a
       then [("qpll", ModQPLL "eth_ref_clk" (mkQPLLSettings 7 4 4 1));
             ("ethphy", ModA7_1000BASEX (mkA7_1000BASEX 0 (pad_sfp p) (sys_clk_freq a) 1 0));
             ("etherbone", ModEtherbone "ethphy" "192.168.1.50")]
       else [])
   ++ [("si5351_clk0_measurement",
        ModClkMeasurement (ClkMeasurement_init "si5351_clk0_measurement" (pad_clk0 p) 1));
       ("si5351_clk1_measurement",
        ModClkMeasurement (ClkMeasurement_init "si5351_clk1_measurement" (pad_clk1 p) 1));
       ("si5351_clk2_measurement",
        ModClkMeasurement (ClkMeasurement_init "si5351_clk2_measurement" (pad_clk2 p) 1));
       ("si5351_clk3_measurement",
        ModClkMeasurement (ClkMeasurement_init "si5351_clk3_measurement" (pad_clk3 p) 1))])%list.

(** The names under which the pads were requested. *)
Definition well_named (a : args) (p : pads) : Prop :=
  fst (pad_clk100 p) = "clk100"
  /\ fst (pad_i2c p) = "si5351_i2c"
  /\ fst (pad_pwm p) = "si5351_pwm"
  /\ pad_leds p <> []
  /\ Forall (fun r => fst r = "user_led") (pad_leds p)
  /\ (with_pcie a = true -> fst (pad_pcie p) = "pcie_x" ++ str (pcie_lanes a))
  /\ (with_ethernet a = true -> pad_sfp p = ("sfp", ethernet_sfp a))
  /\ fst (pad_clk0 p) = "si5351_clk0"
  /\ fst (pad_clk1 p) = "si5351_clk1"
  /\ fst (pad_clk2 p) = "si5351_clk2"
  /\ fst (pad_clk3 p) = "si5351_clk3"
  /\ fst (pad_debug p) = "debug".


Definition ethphys (s : soc) : list A7_1000BASEX :=
  flat_map (fun nm => match snd nm with ModA7_1000BASEX p => [p] | _ => [] end)
           (submodules s).

Definition crgs (s : soc) : list CRG :=
  flat_map (fun nm => match snd nm with ModCRG c => [c] | _ => [] end)
           (submodules s).

Definition qplls (s : soc) : list string :=
  flat_map (fun nm => match snd nm with ModQPLL g _ => [g] | _ => [] end)
           (submodules s).


(** *** Reading the command line *)

Definition action_eqb (a b : action) : bool :=
  match a, b with
  | Help, Help | Build, Build | Load, Load | Flash, Flash | Driver, Driver
  | WithPcie, WithPcie | WithEthernet, WithEthernet | EthernetSfp, EthernetSfp => true
  | _, _ => false
  end.

(** The word is read as the option of action [a]. *)
Definition selects (a : action) (t : string * token) : bool :=
  match snd t with Optional b _ => action_eqb a b | _ => false end.

(** The attribute of the namespace a [store_true] action writes. *)
Definition flag (a : action) (ns : namespace) : bool :=
  match a with
  | Build => ns_build ns
  | Load => ns_load ns
  | Flash => ns_flash ns
  | Driver => ns_driver ns
  | WithPcie => ns_with_pcie ns
  | WithEthernet => ns_with_ethernet ns
  | Help | EthernetSfp => false
  end.

Definition is_store_true (a : action) : bool :=
  match a with Help | EthernetSfp => false | _ => true end.

Section Consumes.

Variable int : string -> option Z.

(** What a successful run of [consume] has read, word by word: flags
    outside a conflict, and [--ethernet-sfp] with a value among its
    choices, attached with [=] or given as the next word. *)
Inductive consumes : list (string * token) -> namespace -> namespace -> Prop :=
| consumes_nil (ns : namespace) : consumes [] ns ns
| consumes_flag (w : string) (a : action) (rest : list (string * token))
                (ns ns' : namespace) :
    is_store_true a = true -> conflicts a ns = false ->
    consumes rest (store_true a ns) ns' ->
    consumes ((w, Optional a None) :: rest) ns ns'
| consumes_sfp_attached (w v : string) (n : Z) (rest : list (string * token))
                        (ns ns' : namespace) :
    sfp_value int v = Some n ->
    consumes rest (store_sfp n ns) ns' ->
    consumes ((w, Optional EthernetSfp (Some v)) :: rest) ns ns'
| consumes_sfp_next (w v : string) (n : Z) (rest : list (string * token))
                    (ns ns' : namespace) :
    sfp_value int v = Some n ->
    consumes rest (store_sfp n ns) ns' ->
    consumes ((w, Optional EthernetSfp None) :: (v, Argument) :: rest) ns ns'.

End Consumes.

(** *** Invariants of the elaboration *)

(** The object an outcome carries, returned or abandoned. *)
Definition final {A : Type} (o : outcome soc A) : soc :=
  match o with Ok _ s => s | Raise _ s => s end.

(** Every pad of the platform is either still available or matched, and
    none is both. *)
Definition conserved (io : list resource) (s : soc) : Prop :=
  Permutation (available s ++ matched s)%list io.

(** A computation keeps an invariant of the object, however it ends. *)
Definition keeps {A : Type} (P : soc -> Prop) (c : M soc A) : Prop :=
  forall s : soc, P s -> P (final (c s)).

End Compose.

(** ** Part III: the clock measurement, proved *)

Module GatewareFacts.
Import Gateware.

Section Facts.

Variable increment : Z.

Local Abbreviation step := (step increment).
Local Abbreviation run := (run increment).
Local Abbreviation pulses := (pulses increment).
Local Abbreviation latched := (latched increment).

(** *** Runs *)

Lemma run_app (tr1 tr2 : list event) (s : state) :
  run (tr1 ++ tr2) s = run tr2 (run tr1 s).
Proof.
  revert s; induction tr1 as [|e tr1 IH]; intros s; simpl; [reflexivity|apply IH].
Qed.

Lemma counter_edges_app (tr1 tr2 : list event) :
  counter_edges (tr1 ++ tr2) = (counter_edges tr1 + counter_edges tr2)%nat.
Proof.
  unfold counter_edges. rewrite filter_app, length_app. reflexivity.
Qed.

Lemma counter_edges_cons (e : event) (tr : list event) :
  counter_edges (e :: tr)
  = ((if ticks_counter e then 1 else 0) + counter_edges tr)%nat.
Proof.
  unfold counter_edges; simpl. destruct (ticks_counter e); reflexivity.
Qed.

Lemma sys_edges_cons (e : event) (tr : list event) :
  sys_edges (e :: tr) = ((if ticks_sys e then 1 else 0) + sys_edges tr)%nat.
Proof.
  unfold sys_edges; simpl. destruct (ticks_sys e); reflexivity.
Qed.

(** *** C5: the free-running counter *)

(** C5.  In every state in which the counter domain is out of reset, an
    edge of the measured clock takes the 64-bit counter to its value plus
    [increment], modulo 2^64, and no other event (a control edge, a change
    of the reset source) modifies it. *)
Theorem counter_free_running (e : event) (s : state) :
  cd_counter_rst s = false ->
  counter (step e s)
  = if ticks_counter e then (counter s + increment) mod 2 ^ 64 else counter s.
Proof.
  intros Hrst.
  destruct e as [re| |re pick mask|level]; simpl; try reflexivity;
    unfold next_counter; rewrite Hrst; reflexivity.
Qed.

(** *** C6: the reset of the counter domain *)

(** While the source is held, the flip-flops stay set. *)
Lemma reset_held (tr : list event) (s : state) :
  no_sys_rst tr = true ->
  sys_rst s = true -> cd_counter s = ars_preset ->
  sys_rst (run tr s) = true /\ cd_counter (run tr s) = ars_preset.
Proof.
  revert s; induction tr as [|e tr IH]; intros s Hno Hr Hp; simpl in *.
  - split; assumption.
  - apply andb_prop in Hno as [He Hno].
    apply IH; [assumption| |];
      destruct e; simpl in *; try discriminate; try assumption;
      rewrite Hr; reflexivity.
Qed.

(** After release the flip-flops hold [rst] for the edges it takes the
    zero to shift through. *)
Lemma reset_shifts_out (tr : list event) (s : state) :
  no_sys_rst tr = true ->
  sys_rst s = false ->
  sys_rst (run tr s) = false
  /\ rst_ff (cd_counter (run tr s))
     = match counter_edges tr with
       | O => rst_ff (cd_counter s)
       | S O => rst_meta (cd_counter s)
       | _ => false
       end
  /\ rst_meta (cd_counter (run tr s))
     = match counter_edges tr with
       | O => rst_meta (cd_counter s)
       | _ => false
       end.
Proof.
  revert s; induction tr as [|e tr IH]; intros s Hno Hr; simpl in *.
  - repeat split; assumption.
  - apply andb_prop in Hno as [He Hno].
    rewrite counter_edges_cons.
    destruct e as [re| |re pick mask|level]; simpl in *; try discriminate;
      match goal with
      | |- context [Gateware.run _ tr ?s'] =>
          destruct (IH s' Hno) as (H1 & H2 & H3); [simpl; assumption|]
      end;
      rewrite H1, H2, H3; simpl; try rewrite Hr; simpl;
      destruct (counter_edges tr) as [|[|n]]; repeat split; reflexivity.
Qed.

(** C6.  The reset of the counter domain is asserted as soon as the reset
    source is, and for as long as it is held; once the source is released,
    at an arbitrary point of the run, the domain reset is still asserted
    in every state reached with fewer than two edges of the domain's
    clock: it is seen asserted at two subsequent edges at least. *)
Theorem reset_release_two_cycles (s : state) (held tr : list event) :
  no_sys_rst held = true ->
  no_sys_rst tr = true ->
  (counter_edges tr < 2)%nat ->
  cd_counter_rst (run (SysRst true :: held) s) = true
  /\ cd_counter_rst (run (SysRst true :: held ++ SysRst false :: tr) s) = true.
Proof.
  intros Hheld Htr Hlt.
  assert (Hh : sys_rst (run (SysRst true :: held) s) = true
               /\ cd_counter (run (SysRst true :: held) s) = ars_preset).
  { simpl. apply reset_held; [assumption|reflexivity|reflexivity]. }
  destruct Hh as [Hr Hp].
  split.
  - unfold cd_counter_rst. rewrite Hr, Hp. reflexivity.
  - change (SysRst true :: held ++ SysRst false :: tr)
      with ((SysRst true :: held) ++ SysRst false :: tr).
    rewrite run_app.
    set (s1 := Gateware.run increment (SysRst true :: held) s) in *.
    change (Gateware.run increment (SysRst false :: tr) s1)
      with (Gateware.run increment tr (Gateware.step increment (SysRst false) s1)).
    destruct (reset_shifts_out tr (Gateware.step increment (SysRst false) s1) Htr)
      as (H1 & H2 & _); [reflexivity|].
    unfold cd_counter_rst, AsyncResetSynchronizer_rst. rewrite H1, H2. simpl. rewrite Hp. simpl.
    destruct (counter_edges tr) as [|[|n]]; [reflexivity|reflexivity|lia].
Qed.

(** The bound is met: the second edge after release clears the reset. *)
Lemma reset_released_after_two (s : state) (tr : list event) :
  no_sys_rst tr = true ->
  (2 <= counter_edges tr)%nat ->
  cd_counter_rst (run (SysRst false :: tr) s) = false.
Proof.
  intros Htr Hge.
  change (Gateware.run increment (SysRst false :: tr) s)
    with (Gateware.run increment tr (Gateware.step increment (SysRst false) s)).
  destruct (reset_shifts_out tr (Gateware.step increment (SysRst false) s) Htr)
    as (H1 & H2 & _); [reflexivity|].
  unfold cd_counter_rst, AsyncResetSynchronizer_rst. rewrite H1, H2.
  destruct (counter_edges tr) as [|[|n]]; [lia|lia|reflexivity].
Qed.

(** *** C3: one pulse per latch request *)










(** A schedule begins with a request, which restarts the latency count. *)
Lemma pulses_schedule_since (segs : list (event * list event)) (s : state)
      (since1 since2 : nat) :
  Forall well_spaced segs ->
  pulses since1 (schedule segs) s = pulses since2 (schedule segs) s.
Proof.
  intros Hall. destruct segs as [|[e tr] segs]; [reflexivity|].
  inversion Hall as [|seg segs' [He _] _]; subst. simpl in He.
  cbn [schedule flat_map fst snd app Gateware.pulses]. rewrite He. reflexivity.
Qed.





(** At such an edge, out of reset, the holding register takes the
    counter; at any other counter edge out of reset it keeps its value. *)
Lemma latch_takes_counter (e : event) (s : state) :
  ticks_counter e = true -> cd_counter_rst s = false ->
  latch_value (step e s)
  = if PulseSynchronizer_o (latch_sync s) then counter s else latch_value s.
Proof.
  intros He Hrst.
  destruct e; simpl in *; try discriminate;
    unfold next_latch_value; rewrite Hrst; reflexivity.
Qed.

(** *** C2: what a read of [value] returns *)

Lemma last_cons_default {A : Type} (l : list A) (a d d' : A) :
  last (a :: l) d = last (a :: l) d'.
Proof.
  revert a; induction l as [|b l IH]; intros a; [reflexivity|].
  change (last (b :: l) d = last (b :: l) d'). apply IH.
Qed.

Lemma last_app_default {A : Type} (l1 l2 : list A) (d : A) :
  last (l1 ++ l2) d = last l2 (last l1 d).
Proof.
  induction l1 as [|x l1 IH]; [reflexivity|].
  destruct l1 as [|y l1].
  - destruct l2 as [|a l2]; [reflexivity|].
    change (last (a :: l2) d = last (a :: l2) x). apply last_cons_default.
  - change (last ((y :: l1) ++ l2) d = last l2 (last (y :: l1) d)). exact IH.
Qed.

(** The holding register is the last value written into it. *)
Lemma latch_value_last (tr : list event) (s : state) :
  latch_value (run tr s) = last (latched tr s) (latch_value s).
Proof.
  revert s; induction tr as [|e tr IH]; intros s; [reflexivity|].
  cbn [Gateware.run Gateware.latched]. rewrite last_app_default, IH. f_equal.
  destruct e as [re| |re pick mask|level]; cbn [Gateware.step latch_value ticks_counter];
    try reflexivity; unfold next_latch_value;
    destruct (cd_counter_rst s); try reflexivity;
    destruct (PulseSynchronizer_o (latch_sync s)); reflexivity.
Qed.

(** A bit that does not change is captured whole, whatever the race. *)
Lemma sample_same (mask v : Z) : sample mask v v = v.
Proof.
  unfold sample. apply Z.bits_inj'. intros n Hn.
  rewrite Z.lor_spec, !Z.land_spec, Z.lnot_spec by assumption.
  destruct (Z.testbit v n), (Z.testbit mask n); reflexivity.
Qed.

Lemma value_kept (tr : list event) (s : state) :
  no_sys_edge tr = true -> value (run tr s) = value s.
Proof.
  revert s; induction tr as [|e tr IH]; intros s H; [reflexivity|].
  simpl in H. apply andb_prop in H as [He H].
  cbn [Gateware.run]. rewrite IH by assumption.
  destruct e; simpl in He; try discriminate; reflexivity.
Qed.

(** Two control edges after an edge that samples a holding register at
    rest, the value register shows that register. *)
Lemma value_two_stage (s : state) (e1 : event) (mid : list event) (e2 : event) :
  ticks_sys e1 = true ->
  latch_value (step e1 s) = latch_value s ->
  no_sys_edge mid = true ->
  ticks_sys e2 = true ->
  value_status (run (e1 :: mid ++ [e2]) s) = latch_value s.
Proof.
  intros H1 Hrest Hmid H2.
  cbn [Gateware.run]. rewrite run_app. cbn [Gateware.run].
  assert (Hcap : regs0 (value (step e1 s)) = latch_value s).
  { destruct e1 as [re| |re pick mask|level]; simpl in H1; try discriminate.
    - reflexivity.
    - cbn [Gateware.step value MultiReg_clock regs0].
      cbn [Gateware.step latch_value] in Hrest. rewrite Hrest. apply sample_same. }
  unfold value_status.
  destruct e2 as [re| |re pick mask|level]; simpl in H2; try discriminate;
    cbn [Gateware.step value MultiReg_clock regs1];
    rewrite (value_kept mid _ Hmid); exact Hcap.
Qed.

(** C2, as amended.  Let a control edge sample the holding register while
    it is not changing.  After the next control edge, whatever the counter
    domain did in between, a read of [value] returns the whole value the
    holding register had at the sampling edge: the last value written into
    it, a counter value taken at a latch pulse or the reset value. *)
Theorem value_reads_latched
        (tr : list event) (e1 : event) (mid : list event) (e2 : event) :
  ticks_sys e1 = true ->
  latch_value (step e1 (run tr power_on)) = latch_value (run tr power_on) ->
  no_sys_edge mid = true ->
  ticks_sys e2 = true ->
  value_status (run (tr ++ e1 :: mid ++ [e2]) power_on)
  = last (latched tr power_on) 0.
Proof.
  intros H1 Hrest Hmid H2.
  rewrite run_app, (value_two_stage _ e1 mid e2 H1 Hrest Hmid H2).
  apply latch_value_last.
Qed.

(** *** C7: a measured clock that has stopped *)

Lemma stopped_clock (tr : list event) :
  forall s : state,
    counter_edges tr = 0%nat ->
    counter (run tr s) = counter s
    /\ latch_value (run tr s) = latch_value s
    /\ toggle_i (latch_sync (run tr s))
       = xorb (toggle_i (latch_sync s)) (Nat.odd (requests tr))
    /\ value (run tr s)
       = match sys_edges tr with
         | O => value s
         | S O => mkMultiReg (latch_value s) (regs0 (value s))
         | _ => mkMultiReg (latch_value s) (latch_value s)
         end.
Proof.
  induction tr as [|e tr IH]; intros s Hk.
  - cbn. rewrite xorb_false_r. repeat split; reflexivity.
  - rewrite counter_edges_cons in Hk.
    destruct e as [re| |re pick mask|level]; simpl in Hk; try discriminate;
      cbn [Gateware.run]; rewrite sys_edges_cons; cbn [ticks_sys];
      match goal with
      | |- context [Gateware.run _ tr ?s'] =>
          destruct (IH s' Hk) as (Hc & Hl & Ht & Hv)
      end;
      rewrite Hc, Hl, Ht, Hv; unfold requests; cbn [filter is_request].
    + repeat split.
      * destruct re; cbn [Gateware.step latch_sync PulseSynchronizer_clock_i toggle_i List.length];
          [rewrite Nat.odd_succ, <- Nat.negb_odd|];
          destruct (toggle_i (latch_sync s)), (Nat.odd (List.length (filter is_request tr)));
          reflexivity.
      * destruct (sys_edges tr) as [|[|k]]; reflexivity.
    + repeat split; try (destruct (sys_edges tr) as [|[|k]]; reflexivity).
Qed.

(** C7, as amended.  While the measured clock produces no edge, the
    counter keeps its value, the control domain goes on registering latch
    requests, and from the second control edge of the interval on every
    read of [value] returns the same number, the content of the holding
    register. *)
Theorem stopped_clock_constant_readout (s : state) (tr1 tr2 : list event) :
  counter_edges (tr1 ++ tr2) = 0%nat ->
  (2 <= sys_edges tr1)%nat ->
  counter (run (tr1 ++ tr2) s) = counter s
  /\ toggle_i (latch_sync (run (tr1 ++ tr2) s))
     = xorb (toggle_i (latch_sync s)) (Nat.odd (requests (tr1 ++ tr2)))
  /\ value_status (run tr1 s) = latch_value s
  /\ value_status (run (tr1 ++ tr2) s) = latch_value s.
Proof.
  intros Hk H2.
  destruct (stopped_clock (tr1 ++ tr2) s Hk) as (Hc & _ & Ht & Hv).
  rewrite counter_edges_app in Hk.
  destruct (stopped_clock tr1 s) as (_ & _ & _ & Hv1); [lia|].
  assert (H2' : (2 <= sys_edges (tr1 ++ tr2))%nat).
  { unfold sys_edges in *. rewrite filter_app, length_app. lia. }
  unfold value_status. rewrite Hv, Hv1.
  repeat split; try assumption.
  - destruct (sys_edges tr1) as [|[|k]]; [lia|lia|reflexivity].
  - destruct (sys_edges (tr1 ++ tr2)) as [|[|k]]; [lia|lia|reflexivity].
Qed.

End Facts.

(** *** Instances, with the default increment *)

Lemma counter_free_running_witness :
  cd_counter_rst (run 1 latch_pending power_on) = false
  /\ counter (step 1 CounterEdge (run 1 latch_pending power_on))
     = (counter (run 1 latch_pending power_on) + 1) mod 2 ^ 64.
Proof.
  split; [reflexivity|].
  apply (counter_free_running 1 CounterEdge (run 1 latch_pending power_on)).
  reflexivity.
Defined.

Lemma reset_release_two_cycles_witness :
  no_sys_rst [SysEdge false; CounterEdge] = true
  /\ no_sys_rst [SysEdge true; CounterEdge; SysEdge false] = true
  /\ (counter_edges [SysEdge true; CounterEdge; SysEdge false] < 2)%nat
  /\ cd_counter_rst (run 1 (SysRst true :: [SysEdge false; CounterEdge]) power_on) = true
  /\ cd_counter_rst
       (run 1 (SysRst true :: [SysEdge false; CounterEdge]
                 ++ SysRst false :: [SysEdge true; CounterEdge; SysEdge false])
            power_on) = true.
Proof.
  split; [reflexivity|]. split; [reflexivity|]. split; [vm_compute; lia|].
  apply (reset_release_two_cycles 1 power_on [SysEdge false; CounterEdge]
           [SysEdge true; CounterEdge; SysEdge false]);
    [reflexivity|reflexivity|vm_compute; lia].
Defined.


(** C2, the claim as stated fails.  The latch lands on a counter edge that
    coincides with a control edge; bit 0 of the new value 5 is captured,
    the other bits keep the old level, and one control edge later a read
    of [value] returns 1, which the holding register never held: it held
    0, by reset, and 5. *)
Lemma torn_readout :
  value_status (run 1 torn_transfer power_on) = 1
  /\ latched 1 torn_transfer power_on = [0; 0; 5]
  /\ sample 1 0 5 = 1.
Proof. repeat split; reflexivity. Qed.

Lemma value_reads_latched_witness :
  value_status (run 1 (latch_landed ++ SysEdge false :: [CounterEdge] ++ [SysEdge true])
                    power_on) = 5.
Proof.
  apply (value_reads_latched 1 latch_landed (SysEdge false) [CounterEdge] (SysEdge true));
    reflexivity.
Defined.

(** C7, the claim as stated fails.  A latch lands just before the measured
    clock stops.  Two requests are then written with no counter edge at
    all; a read right after the first returns 0, a read after the second
    returns 5: the earlier latch was still on its way to [value]. *)
Lemma stale_transfer_readout :
  counter_edges two_requests = 0%nat
  /\ requests two_requests = 2%nat
  /\ value_status (run 1 (latch_landed ++ [SysEdge true]) power_on) = 0
  /\ value_status (run 1 (latch_landed ++ two_requests) power_on) = 5.
Proof. repeat split; reflexivity. Qed.

Lemma stopped_clock_constant_readout_witness :
  value_status (run 1 [SysEdge true; SysEdge false] (run 1 latch_landed power_on))
  = value_status (run 1 ([SysEdge true; SysEdge false] ++ [SysEdge true])
                      (run 1 latch_landed power_on)).
Proof.
  destruct (stopped_clock_constant_readout 1 (run 1 latch_landed power_on)
              [SysEdge true; SysEdge false] [SysEdge true])
    as (_ & _ & H1 & H2); [reflexivity|vm_compute; lia|].
  rewrite H1, H2. reflexivity.
Defined.

(** *** Further facts on the registers of a measurement *)

Section MoreFacts.

Variable increment : Z.

Local Abbreviation step := (step increment).
Local Abbreviation run := (run increment).
Local Abbreviation latched := (latched increment).

(** *** The registers are 64 bits wide *)

Lemma fits64_land_ones (v : Z) : fits64 v <-> Z.land v (Z.ones 64) = v.
Proof.
  unfold fits64. rewrite Z.land_ones by lia. split.
  - intros H. apply Z.mod_small. exact H.
  - intros H. rewrite <- H. apply Z.mod_pos_bound. lia.
Qed.

(** Whatever bits a racing capture picks, the result is a 64-bit value. *)
Lemma sample_fits (mask old new : Z) :
  fits64 old -> fits64 new -> fits64 (sample mask old new).
Proof.
  rewrite !fits64_land_ones. intros Ho Hn. unfold sample.
  rewrite Z.land_lor_distr_l.
  rewrite <- (Z.land_assoc new), (Z.land_comm mask), (Z.land_assoc new), Hn.
  rewrite <- (Z.land_assoc old), (Z.land_comm (Z.lnot mask)), (Z.land_assoc old), Ho.
  reflexivity.
Qed.

Lemma wrap64_fits (v : Z) : fits64 (wrap64 v).
Proof. unfold fits64, wrap64. apply Z.mod_pos_bound. lia. Qed.

Lemma fits64_0 : fits64 0.
Proof. unfold fits64. lia. Qed.

Lemma next_counter_fits (s : state) : fits64 (next_counter increment s).
Proof.
  unfold next_counter. destruct (cd_counter_rst s); [apply fits64_0|apply wrap64_fits].
Qed.

Lemma next_latch_value_fits (s : state) :
  registers_fit s -> fits64 (next_latch_value s).
Proof.
  intros (Hc & Hl & _). unfold next_latch_value.
  destruct (cd_counter_rst s); [apply fits64_0|].
  destruct (PulseSynchronizer_o (latch_sync s)); assumption.
Qed.

Lemma step_fits (e : event) (s : state) :
  registers_fit s -> registers_fit (step e s).
Proof.
  intros H. pose proof (next_latch_value_fits s H) as Hn.
  pose proof (next_counter_fits s) as Hc.
  destruct H as (H1 & H2 & H3 & H4).
  destruct e as [re| |re pick mask|level]; unfold registers_fit;
    cbn [Gateware.step counter latch_value value MultiReg_clock regs0 regs1];
    (split; [|split; [|split]]); try assumption;
    try (apply sample_fits; assumption).
Qed.

Lemma run_fits (tr : list event) (s : state) :
  registers_fit s -> registers_fit (run tr s).
Proof.
  revert s; induction tr as [|e tr IH]; intros s H; [exact H|].
  cbn [Gateware.run]. apply IH, step_fits, H.
Qed.

(** X1.  On every run from power-up the counter, the holding register
    and both stages of the value register hold numbers from 0 to
    2^64 - 1, also after a capture that raced with a latch; so does every
    read of [value]. *)
Theorem registers_stay_64_bit (tr : list event) :
  registers_fit (run tr power_on)
  /\ 0 <= value_status (run tr power_on) < 2 ^ 64.
Proof.
  assert (H : registers_fit (run tr power_on)).
  { apply run_fits. unfold registers_fit, fits64. cbn. lia. }
  split; [exact H|]. apply H.
Qed.

(** *** Counting edges *)

Lemma released_step (e : event) (s : state) :
  released s = true -> is_sys_rst e = false ->
  released (step e s) = true /\ cd_counter_rst s = false.
Proof.
  unfold released, cd_counter_rst, AsyncResetSynchronizer_rst.
  intros H He. destruct s as [r [m f] c l p v].
  cbn [sys_rst cd_counter rst_meta rst_ff] in *.
  destruct r, m, f; try discriminate.
  destruct e; try discriminate; split; reflexivity.
Qed.

Lemma counter_run (tr : list event) :
  forall s : state,
    released s = true -> no_sys_rst tr = true -> fits64 (counter s) ->
    released (run tr s) = true
    /\ counter (run tr s)
       = (counter s + Z.of_nat (counter_edges tr) * increment) mod 2 ^ 64.
Proof.
  induction tr as [|e tr IH]; intros s Hrel Hno Hfit.
  - split; [exact Hrel|]. cbn. rewrite Z.add_0_r. symmetry. apply Z.mod_small. exact Hfit.
  - cbn [no_sys_rst forallb] in Hno. apply andb_prop in Hno as [He Hno].
    apply negb_true_iff in He.
    destruct (released_step e s Hrel He) as [Hrel' Hrst].
    cbn [Gateware.run].
    assert (Hfit' : fits64 (counter (step e s))).
    { destruct (step_fits e (mkState (sys_rst s) (cd_counter s) (counter s) 0
                                      (latch_sync s) (mkMultiReg 0 0))) as (Hc & _).
      - split; [exact Hfit|]. repeat split; cbn; lia.
      - destruct e; cbn [Gateware.step counter] in *; try exact Hfit;
          apply next_counter_fits. }
    destruct (IH (step e s) Hrel' Hno Hfit') as [Hr Hc].
    split; [exact Hr|]. rewrite Hc, counter_edges_cons.
    destruct e as [re| |re pick mask|level]; try discriminate;
      cbn [Gateware.step counter ticks_counter];
      unfold next_counter, wrap64; try rewrite Hrst;
      rewrite ?Nat2Z.inj_add; cbn [Z.of_nat Nat.add];
      try (f_equal; lia);
      rewrite Zplus_mod_idemp_l; f_equal; lia.
Qed.

(** X2.  Once the reset of the counter domain is released, and for as
    long as the reset source stays low, the counter advances by
    [increment] per edge of the measured clock and by nothing else: over
    any stretch of a run it grows by the number of counter edges times
    [increment], modulo 2^64. *)
Theorem counter_counts_edges (pre post : list event) :
  released (run pre power_on) = true ->
  no_sys_rst post = true ->
  counter (run (pre ++ post) power_on)
  = (counter (run pre power_on) + Z.of_nat (counter_edges post) * increment) mod 2 ^ 64.
Proof.
  intros Hrel Hno. rewrite run_app.
  apply counter_run; [exact Hrel|exact Hno|].
  apply (run_fits pre power_on). unfold registers_fit, fits64. cbn. lia.
Qed.

(** *** The holding register *)

(** X3.  On every run from power-up the holding register holds a value
    the counter had at some earlier point of that run: the latch copies
    the counter and nothing else ever writes the register, the domain
    reset apart, which writes the counter's own reset value. *)
Theorem latch_value_is_snapshot (tr : list event) :
  exists tr1 tr2 : list event,
    tr = tr1 ++ tr2
    /\ latch_value (run tr power_on) = counter (run tr1 power_on).
Proof.
  induction tr as [|e tr IH] using rev_ind.
  - exists [], []. split; reflexivity.
  - destruct IH as (tr1 & tr2 & Heq & Hl).
    rewrite run_app. cbn [Gateware.run].
    set (s := Gateware.run increment tr power_on) in *.
    assert (Hkeep : latch_value (step e s) = latch_value s
                    \/ latch_value (step e s) = counter s
                    \/ latch_value (step e s) = 0).
    { destruct e; cbn [Gateware.step latch_value]; auto;
        unfold next_latch_value; destruct (cd_counter_rst s); auto;
        destruct (PulseSynchronizer_o (latch_sync s)); auto. }
    destruct Hkeep as [H|[H|H]]; rewrite H.
    + exists tr1, (tr2 ++ [e]). split; [rewrite Heq, app_assoc; reflexivity|exact Hl].
    + exists tr, [e]. split; reflexivity.
    + exists [], (tr ++ [e]). split; reflexivity.
Qed.

(** *** Reset *)

(** X4.  When the reset source is asserted, the first edge of the
    measured clock clears the counter and the holding register, and they
    stay at zero for as long as the source is held. *)
Theorem reset_clears_counter (s : state) (tr : list event) :
  no_sys_rst tr = true -> (1 <= counter_edges tr)%nat ->
  counter (run (SysRst true :: tr) s) = 0
  /\ latch_value (run (SysRst true :: tr) s) = 0.
Proof.
  intros Hno Hge. cbn [Gateware.run].
  assert (G : forall s0, sys_rst s0 = true -> cd_counter s0 = ars_preset ->
                         (1 <= counter_edges tr)%nat
                         \/ (counter s0 = 0 /\ latch_value s0 = 0) ->
                         counter (run tr s0) = 0 /\ latch_value (run tr s0) = 0).
  { clear s Hge. induction tr as [|e tr IH]; intros s0 Hr Hp Hc.
    - destruct Hc as [Hc|Hc]; [cbn in Hc; lia|exact Hc].
    - cbn [no_sys_rst forallb] in Hno. apply andb_prop in Hno as [He Hno].
      cbn [Gateware.run]. apply (IH Hno).
      + destruct e; try discriminate; reflexivity || exact Hr.
      + destruct e; try discriminate; cbn [Gateware.step cd_counter];
          rewrite ?Hr; try exact Hp; reflexivity.
      + rewrite counter_edges_cons in Hc.
        destruct e as [re| |re pick mask|level]; try discriminate;
          cbn [ticks_counter Gateware.step counter latch_value] in *;
          unfold next_counter, next_latch_value, cd_counter_rst,
                 AsyncResetSynchronizer_rst; rewrite ?Hr, ?Hp; cbn [ars_preset rst_ff orb];
          try (right; split; reflexivity);
          (destruct Hc as [Hc|Hc]; [left; lia|right; exact Hc]). }
  apply G; [reflexivity|reflexivity|left; exact Hge].
Qed.

End MoreFacts.

(** *** Instances of the above, with the default increment *)

Lemma counter_counts_edges_witness :
  counter (run 1 (latch_pending ++ [CounterEdge; SysEdge true; CounterEdge]) power_on) = 7.
Proof.
  rewrite (counter_counts_edges 1 latch_pending [CounterEdge; SysEdge true; CounterEdge]
             eq_refl eq_refl).
  reflexivity.
Defined.

Lemma reset_clears_counter_witness :
  counter (run 1 latch_landed power_on) = 6
  /\ counter (run 1 (SysRst true :: [SysEdge false; CounterEdge])
                  (run 1 latch_landed power_on)) = 0.
Proof.
  split; [reflexivity|].
  apply (reset_clears_counter 1 (run 1 latch_landed power_on) [SysEdge false; CounterEdge]);
    [reflexivity|vm_compute; lia].
Defined.

End GatewareFacts.

(** ** Part IV: the elaboration, proved *)

Module ComposeFacts.
Import Compose.
Open Scope string_scope.

(** [request_all] never raises inside its loop and only moves resources. *)
Lemma request_all_loop_ok (fuel : nat) (name : string) :
  forall (r : list resource) (s : soc),
  exists (r' av' ma' : list resource),
    request_all_loop fuel name r s
    = Ok r' (mkSoc av' ma' (period_constraints s) (false_path_constraints s)
                   (pre_placement_commands s) (platform_commands s)
                   (submodules s) (comb s)).
Proof.
  induction fuel as [|fuel IH]; intros r s.
  - exists r, (available s), (matched s). destruct s; reflexivity.
  - cbn [request_all_loop]. unfold request.
    destruct (find _ (available s)) as [x|].
    + destruct (IH (r ++ [x])%list
                  (mkSoc (remove_first name (Some (Z.of_nat (List.length r))) (available s))
                         (matched s ++ [x])%list (period_constraints s)
                         (false_path_constraints s) (pre_placement_commands s)
                         (platform_commands s) (submodules s) (comb s)))
        as (r' & av' & ma' & Heq).
      exists r', av', ma'. exact Heq.
    + exists r, (available s), (matched s). destruct s; reflexivity.
Qed.

Ltac unfold_program H :=
  cbv beta iota zeta delta
      [BaseSoC BaseSoC_init CRG_init add_clk_measurement pcie etherbone
       clock_groups for_each when bind ret raise get modify request
       lookup_request request_all add_module add_period_constraint
       add_false_path_constraints pre_placement_append add_platform_command
       update_config add_comb data_width_of Platform
       available matched period_constraints false_path_constraints
       pre_placement_commands platform_commands submodules comb
       sys_clk_freq with_pcie pcie_lanes with_ethernet ethernet_sfp with_jtagbone] in H.

Ltac exec H :=
  unfold_program H;
  repeat first
    [ discriminate H
    | match type of H with
      | context [request_all_loop ?f ?n ?r ?s] =>
          let r' := fresh "leds" in
          let av := fresh "av" in
          let ma := fresh "ma" in
          let E := fresh "E" in
          destruct (request_all_loop_ok f n r s) as (r' & av & ma & E);
          rewrite E in H; clear E; destruct r'; unfold_program H
      | context [match find ?f ?l with _ => _ end] =>
          destruct (find f l) eqn:?; unfold_program H
      | context [if Z.eqb ?x ?y then _ else _] =>
          destruct (Z.eqb_spec x y); [try contradiction|]; unfold_program H
      end ].

Lemma BaseSoC_design (io : list resource) (a : args) (s : soc) :
  BaseSoC io a = Ok tt s ->
  false_path_constraints s = expected_false_paths a
  /\ pre_placement_commands s = expected_commands a
  /\ (exists c0 c1 c2 c3 : resource,
        measurements s
        = [("si5351_clk0_measurement", ClkMeasurement_init "si5351_clk0_measurement" c0 1);
           ("si5351_clk1_measurement", ClkMeasurement_init "si5351_clk1_measurement" c1 1);
           ("si5351_clk2_measurement", ClkMeasurement_init "si5351_clk2_measurement" c2 1);
           ("si5351_clk3_measurement", ClkMeasurement_init "si5351_clk3_measurement" c3 1)])
  /\ (if with_pcie a
      then (pcie_lanes a = 1 \/ pcie_lanes a = 4)
           /\ exists pads : resource,
               pcie_phys s
               = [mkS7PCIEPHY pads (if Z.eqb (pcie_lanes a) 1 then 64 else 128)
                              131072 "sys" pcie_config]
      else pcie_phys s = [])
  /\ pcies s = (if with_pcie a then [mkPCIe 32 1 true 8192 true true true] else [])
  /\ pcie_active s = with_pcie a
  /\ ethernet_active s = with_ethernet a.
Proof.
  destruct a as [f wp lanes we sfp wj].
  intros H.
  destruct wp, we, wj; exec H.
  all: inversion H; subst; clear H.
  all: cbv [expected_false_paths expected_commands with_pcie with_jtagbone
            with_ethernet pcie_lanes].
  all: subst; try rewrite Z.eqb_refl.
  all: try match goal with
           | E : ?l <> 1 |- _ => destruct (Z.eqb_spec l 1); [contradiction|]
           end.
  all: repeat split; try reflexivity; auto;
       try (do 4 eexists; reflexivity); try (eexists; reflexivity).
Qed.

(** *** C10: lane counts outside the width table *)



(** *** C8, C9: what a successful composition contains *)

(** C8.  Whenever [BaseSoC] composes with [with_pcie] set, there is one
    PCIe PHY, whose data width follows the lane count, 64 bits for one
    lane and 128 bits for four, and the PCIe core is added with DMA
    buffering enabled at a depth of 8192, which is 2^13. *)
Theorem pcie_width_and_buffering (io : list resource) (a : args) (s : soc) :
  BaseSoC io a = Ok tt s ->
  with_pcie a = true ->
  (pcie_lanes a = 1 /\ map data_width (pcie_phys s) = [64]
   \/ pcie_lanes a = 4 /\ map data_width (pcie_phys s) = [128])
  /\ map (fun p => (with_dma_buffering p, dma_buffering_depth p)) (pcies s)
     = [(true, 8192)]
  /\ 8192 = 2 ^ 13.
Proof.
  intros H Hp.
  destruct (BaseSoC_design io a s H) as (_ & _ & _ & Hphy & Hpcie & _).
  rewrite Hp in Hphy, Hpcie. destruct Hphy as [Hl [pads Hphy]].
  rewrite Hphy, Hpcie. repeat split.
  destruct Hl as [Hl|Hl]; rewrite Hl; [left|right]; split; reflexivity.
Qed.

(** C9.  Whenever [BaseSoC] composes, it holds exactly the four clock
    measurements [si5351_clk0_measurement] to [si5351_clk3_measurement],
    and each publishes exactly two registers: [latch], a one-bit
    write-triggered strobe, and [value], a 64-bit read-only status. *)
Theorem clk_measurement_registers (io : list resource) (a : args) (s : soc) :
  BaseSoC io a = Ok tt s ->
  map fst (measurements s) = measurement_names
  /\ Forall (fun m => get_csrs m = [("latch", CSR 1); ("value", CSRStatus 64)])
            (map snd (measurements s)).
Proof.
  intros H.
  destruct (BaseSoC_design io a s H) as (_ & _ & (c0 & c1 & c2 & c3 & Hm) & _).
  rewrite Hm. split; [reflexivity|].
  repeat constructor.
Qed.

(** *** C4: the declarations emitted *)




(** *** C1: the two backends *)

Section ParserFacts.

Variable parse_optional : string -> token.
Variable int : string -> option Z.

Local Abbreviation consume := (consume int).
Local Abbreviation classify := (classify parse_optional).
Local Abbreviation parse_args := (parse_args parse_optional int).
Local Abbreviation main := (main parse_optional int).

(** What a successful parse has stored for the two backend flags: the
    flag was set already, or one of the words asked for it. *)
Lemma consume_flags (n : nat) :
  forall (toks : list (string * token)) (ns : namespace) (extras : bool)
         (ns' : namespace),
    (List.length toks <= n)%nat ->
    consume toks ns extras = Parsed ns' ->
    ns_with_pcie ns' = ns_with_pcie ns || existsb is_with_pcie toks
    /\ ns_with_ethernet ns' = ns_with_ethernet ns || existsb is_with_ethernet toks.
Proof.
  induction n as [|n IH]; intros toks ns extras ns' Hlen H.
  - destruct toks; [|simpl in Hlen; lia].
    simpl in H. destruct extras; [discriminate|].
    inversion H; subst. rewrite !orb_false_r. split; reflexivity.
  - destruct toks as [|[w t] rest].
    + simpl in H. destruct extras; [discriminate|].
      inversion H; subst. rewrite !orb_false_r. split; reflexivity.
    + simpl in Hlen.
      destruct t as [a explicit_arg| | | |];
        cbn [Compose.consume] in H;
        try discriminate;
        try (apply IH in H; [|lia]; exact H).
      destruct a; try discriminate;
        try (destruct explicit_arg; [discriminate|];
             cbn [conflicts] in H;
             try (destruct (conflicts _ _) eqn:Hc; [discriminate|]);
             apply IH in H; [|lia];
             destruct H as [Hp He]; rewrite Hp, He;
             cbn [existsb is_with_pcie is_with_ethernet snd store_true
                  ns_with_pcie ns_with_ethernet];
             rewrite ?orb_false_l, ?orb_true_l, ?orb_true_r; split; reflexivity).
      * destruct explicit_arg; discriminate.
      * (* --with-pcie *)
        destruct explicit_arg; [discriminate|].
        cbn [conflicts] in H.
        destruct (ns_with_ethernet ns) eqn:Hc; [discriminate|].
        apply IH in H; [|lia].
        destruct H as [Hp He]. rewrite Hp, He.
        cbn [existsb is_with_pcie is_with_ethernet snd store_true
             ns_with_pcie ns_with_ethernet].
        rewrite Hc, ?orb_true_l, ?orb_true_r, ?orb_false_l. split; reflexivity.
      * (* --with-ethernet *)
        destruct explicit_arg; [discriminate|].
        cbn [conflicts] in H.
        destruct (ns_with_pcie ns) eqn:Hc; [discriminate|].
        apply IH in H; [|lia].
        destruct H as [Hp He]. rewrite Hp, He.
        cbn [existsb is_with_pcie is_with_ethernet snd store_true
             ns_with_pcie ns_with_ethernet].
        rewrite Hc, ?orb_true_l, ?orb_true_r, ?orb_false_l. split; reflexivity.
      * (* --ethernet-sfp *)
        destruct explicit_arg as [v|].
        -- destruct (sfp_value int v); [|discriminate].
           apply IH in H; [|lia]. exact H.
        -- destruct rest as [|[v t] rest']; [discriminate|].
           destruct t; try discriminate.
           destruct (sfp_value int v); [|discriminate].
           apply IH in H; [|simpl in Hlen |- *; lia]. exact H.
Qed.

(** The mutually exclusive group: a successful parse never holds both. *)
Lemma consume_exclusive (n : nat) :
  forall (toks : list (string * token)) (ns : namespace) (extras : bool)
         (ns' : namespace),
    (List.length toks <= n)%nat ->
    ns_with_pcie ns && ns_with_ethernet ns = false ->
    consume toks ns extras = Parsed ns' ->
    ns_with_pcie ns' && ns_with_ethernet ns' = false.
Proof.
  induction n as [|n IH]; intros toks ns extras ns' Hlen Hex H.
  - destruct toks; [|simpl in Hlen; lia].
    simpl in H. destruct extras; [discriminate|]. inversion H; subst. exact Hex.
  - destruct toks as [|[w t] rest].
    + simpl in H. destruct extras; [discriminate|]. inversion H; subst. exact Hex.
    + simpl in Hlen.
      destruct t as [a explicit_arg| | | |];
        cbn [Compose.consume] in H;
        try discriminate;
        try (eapply IH in H; [exact H|lia|exact Hex]).
      destruct a; try discriminate;
        try (destruct explicit_arg; [discriminate|];
             cbn [conflicts] in H;
             eapply IH in H; [exact H|lia|exact Hex]).
      * destruct explicit_arg; discriminate.
      * destruct explicit_arg; [discriminate|].
        cbn [conflicts] in H.
        destruct (ns_with_ethernet ns) eqn:Hc; [discriminate|].
        eapply IH in H; [exact H|lia|].
        cbn [store_true ns_with_pcie ns_with_ethernet]. rewrite Hc. reflexivity.
      * destruct explicit_arg; [discriminate|].
        cbn [conflicts] in H.
        destruct (ns_with_pcie ns) eqn:Hc; [discriminate|].
        eapply IH in H; [exact H|lia|].
        cbn [store_true ns_with_pcie ns_with_ethernet]. rewrite Hc. reflexivity.
      * destruct explicit_arg as [v|].
        -- destruct (sfp_value int v); [|discriminate].
           eapply IH in H; [exact H|lia|exact Hex].
        -- destruct rest as [|[v t] rest']; [discriminate|].
           destruct t; try discriminate.
           destruct (sfp_value int v); [|discriminate].
           eapply IH in H; [exact H|simpl in Hlen |- *; lia|exact Hex].
Qed.

Lemma parse_args_flags (argv : list string) (ns : namespace) :
  parse_args argv = Parsed ns ->
  ns_with_pcie ns = existsb is_with_pcie (classify argv)
  /\ ns_with_ethernet ns = existsb is_with_ethernet (classify argv)
  /\ ns_with_pcie ns && ns_with_ethernet ns = false.
Proof.
  unfold Compose.parse_args. intros H.
  destruct (existsb is_ambiguous (classify argv)); [discriminate|].
  pose proof (consume_flags _ _ _ _ _ (le_n _) H) as [Hp He].
  pose proof (consume_exclusive _ (classify argv) namespace_defaults false ns (le_n _) eq_refl H) as Hx.
  repeat split; assumption.
Qed.

(** C1, as amended.  The two backends exclude each other on the command
    line only.  When the words given to [main] select both [--with-pcie]
    and [--with-ethernet], [main] exits from the argument parser, before
    [BaseSoC] is called; and a SoC that [main] hands to the builder has
    the backends its parsed flags name, never both. *)
Theorem backends_exclusive_through_main (io : list resource) (argv : list string) :
  (existsb is_with_pcie (classify argv) = true ->
   existsb is_with_ethernet (classify argv) = true ->
   exists code : Z, main io argv = SystemExit code)
  /\ (forall (ns : namespace) (s : soc),
        main io argv = Built ns s ->
        pcie_active s = ns_with_pcie ns
        /\ ethernet_active s = ns_with_ethernet ns
        /\ pcie_active s && ethernet_active s = false).
Proof.
  unfold Compose.main. split.
  - intros Hp He.
    destruct (parse_args argv) as [ns| |] eqn:H; [|eauto|eauto].
    apply parse_args_flags in H as (H1 & H2 & H3).
    rewrite H1, H2, Hp, He in H3. discriminate.
  - intros ns s H.
    destruct (parse_args argv) as [ns0| |] eqn:Hparse; try discriminate.
    destruct (BaseSoC io _) as [[] s0|e s0] eqn:Hsoc; [|discriminate].
    inversion H; subst.
    destruct (BaseSoC_design _ _ _ Hsoc) as (_ & _ & _ & _ & _ & Hp & He).
    cbn [with_pcie with_ethernet] in Hp, He.
    apply parse_args_flags in Hparse as (_ & _ & Hx).
    rewrite Hp, He. repeat split. exact Hx.
Qed.

End ParserFacts.


(** *** Instances *)

(** [BaseSoC()] with its default arguments on [board_io]. *)
Lemma defaults_compose :
  BaseSoC board_io defaults = Ok tt (composed board_io defaults).
Proof. vm_compute. reflexivity. Qed.

(** C1, the claim as stated fails.  [BaseSoC.__init__] has no guard: with
    both flags set, which is its default, it composes and holds both the
    PCIe PHY and the Ethernet PHY. *)
Lemma both_backends_composed :
  BaseSoC board_io defaults = Ok tt (composed board_io defaults)
  /\ with_pcie defaults = true /\ with_ethernet defaults = true
  /\ pcie_active (composed board_io defaults) = true
  /\ ethernet_active (composed board_io defaults) = true.
Proof.
  split; [exact defaults_compose|].
  split; [reflexivity|]. split; [reflexivity|].
  split; vm_compute; reflexivity.
Qed.

Lemma backends_exclusive_through_main_witness :
  exists code : Z,
    main parse_optional int_decimal board_io ["--with-pcie"; "--with-ethernet"]
    = SystemExit code.
Proof.
  apply (backends_exclusive_through_main parse_optional int_decimal board_io
           ["--with-pcie"; "--with-ethernet"]); vm_compute; reflexivity.
Defined.



Lemma pcie_width_and_buffering_witness :
  map data_width (pcie_phys (composed board_io defaults)) = [64]
  /\ map (fun p => (with_dma_buffering p, dma_buffering_depth p))
         (pcies (composed board_io defaults)) = [(true, 8192)].
Proof.
  destruct (pcie_width_and_buffering board_io defaults (composed board_io defaults)
              defaults_compose eq_refl) as ([[_ H]|[H _]] & H2 & _).
  - split; assumption.
  - discriminate H.
Defined.

Lemma clk_measurement_registers_witness :
  map fst (measurements (composed board_io defaults)) = measurement_names.
Proof.
  apply (clk_measurement_registers board_io defaults (composed board_io defaults)
           defaults_compose).
Defined.




(** *** The whole of a successful composition *)


Lemma find_request (name : string) (number : option Z) (l : list resource) (r : resource) :
  find (matches name number) l = Some r ->
  In r l /\ fst r = name /\ match number with None => True | Some n => snd r = n end.
Proof.
  intros H. apply find_some in H as [Hin H]. split; [exact Hin|].
  unfold matches in H. apply andb_prop in H as [Hn Hk].
  apply String.eqb_eq in Hn. split; [exact Hn|].
  destruct number; [apply Z.eqb_eq; exact Hk|exact I].
Qed.

Lemma remove_first_incl (name : string) (number : option Z) (l : list resource) :
  incl (remove_first name number l) l.
Proof.
  induction l as [|r l IH]; intros x Hx; [exact Hx|].
  cbn [remove_first] in Hx. destruct (matches name number r).
  - right; exact Hx.
  - destruct Hx as [Hx|Hx]; [left; exact Hx|right; apply IH, Hx].
Qed.

(** The loop of [request_all] moves the pads it obtains, all of the name
    asked for, from the available to the matched ones and changes nothing
    else. *)
Lemma request_all_loop_moves (fuel : nat) (name : string) :
  forall (r : list resource) (s : soc),
  exists (new av' : list resource),
    request_all_loop fuel name r s
    = Ok (r ++ new)%list
         (mkSoc av' (matched s ++ new)%list (period_constraints s)
                (false_path_constraints s) (pre_placement_commands s)
                (platform_commands s) (submodules s) (comb s))
    /\ Forall (fun x => fst x = name) new
    /\ incl new (available s) /\ incl av' (available s).
Proof.
  induction fuel as [|fuel IH]; intros r s.
  - exists [], (available s). rewrite !app_nil_r.
    split; [destruct s; reflexivity|]. split; [constructor|].
    split; [intros x []|apply incl_refl].
  - cbn [request_all_loop]. unfold request.
    destruct (find _ (available s)) as [x|] eqn:E.
    + destruct (find_request _ _ _ _ E) as (Hin & Hn & _).
      destruct (IH (r ++ [x])%list
                  (mkSoc (remove_first name (Some (Z.of_nat (List.length r))) (available s))
                         (matched s ++ [x])%list (period_constraints s)
                         (false_path_constraints s) (pre_placement_commands s)
                         (platform_commands s) (submodules s) (comb s)))
        as (new & av' & Heq & Hnew & Hincl & Hav).
      exists (x :: new), av'. cbn [available matched period_constraints
        false_path_constraints pre_placement_commands platform_commands
        submodules comb] in *.
      rewrite <- !app_assoc in Heq. cbn [app] in Heq.
      split; [exact Heq|]. split; [constructor; assumption|].
      split.
      * intros y [Hy|Hy]; [subst; exact Hin|].
        eapply remove_first_incl, Hincl, Hy.
      * intros y Hy. eapply remove_first_incl, Hav, Hy.
    + exists [], (available s). rewrite !app_nil_r.
      split; [destruct s; reflexivity|]. split; [constructor|].
      split; [intros x []|apply incl_refl].
Qed.

Lemma request_all_moves (name : string) (s : soc) :
  (exists (x : resource) (leds av' : list resource),
      request_all name s
      = Ok (x :: leds)
           (mkSoc av' (matched s ++ x :: leds)%list (period_constraints s)
                  (false_path_constraints s) (pre_placement_commands s)
                  (platform_commands s) (submodules s) (comb s))
      /\ Forall (fun y => fst y = name) (x :: leds)
      /\ incl (x :: leds) (available s) /\ incl av' (available s))
  \/ (exists av' : list resource,
        request_all name s
        = Raise (ValueError name)
                (mkSoc av' (matched s) (period_constraints s)
                       (false_path_constraints s) (pre_placement_commands s)
                       (platform_commands s) (submodules s) (comb s))
        /\ incl av' (available s)).
Proof.
  unfold request_all, bind, get.
  destruct (request_all_loop_moves (S (List.length (available s))) name [] s)
    as (new & av' & Heq & Hnew & Hincl & Hav).
  rewrite Heq. cbn [app]. destruct new as [|x leds].
  - right. exists av'. rewrite app_nil_r. split; [reflexivity|exact Hav].
  - left. exists x, leds, av'. repeat split; assumption.
Qed.

Lemma find_app_first {A : Type} (f : A -> bool) (l1 l2 : list A) :
  find f (l1 ++ l2)
  = match find f l1 with Some x => Some x | None => find f l2 end.
Proof.
  induction l1 as [|x l1 IH]; [reflexivity|].
  cbn [app find]. destruct (f x); [reflexivity|exact IH].
Qed.

Lemma find_other_name (name other : string) (number : option Z) (l : list resource) :
  String.eqb other name = false ->
  Forall (fun y => fst y = other) l ->
  find (matches name number) l = None.
Proof.
  intros Hne H. induction H as [|y l Hy _ IH]; [reflexivity|].
  cbn [find]. unfold matches at 1. rewrite Hy, Hne. exact IH.
Qed.

Ltac unfold_elaboration H :=
  cbv beta iota zeta delta
      [BaseSoC BaseSoC_init CRG_init add_clk_measurement pcie etherbone
       clock_groups for_each when bind ret raise get modify request
       add_module add_period_constraint
       add_false_path_constraints pre_placement_append add_platform_command
       update_config add_comb data_width_of Platform
       available matched period_constraints false_path_constraints
       pre_placement_commands platform_commands submodules comb
       sys_clk_freq with_pcie pcie_lanes with_ethernet ethernet_sfp with_jtagbone] in H.

(** Symbolic execution of the elaboration that keeps what each request
    returned. *)
Ltac elaborate H :=
  unfold_elaboration H;
  repeat first
    [ discriminate H
    | match type of H with
      | context [request_all ?n ?s] =>
          let x := fresh "led" in
          let leds := fresh "leds" in
          let av := fresh "av" in
          let E := fresh "E" in
          let Hleds := fresh "Hleds" in
          destruct (request_all_moves n s)
            as [(x & leds & av & E & Hleds & _ & _)|(av & E & _)];
          rewrite E in H; clear E; unfold_elaboration H
      | context [lookup_request ?n ?k ?s] =>
          unfold lookup_request in H; cbn [matched] in H;
          repeat rewrite find_app_first in H;
          repeat match type of H with
                 | context [find (matches ?n' ?k') (?y :: ?l)] =>
                     match goal with
                     | Hl : Forall (fun _ => fst _ = ?o) (y :: l) |- _ =>
                         rewrite (find_other_name n' o k' (y :: l) eq_refl Hl) in H
                     end
                 end;
          cbn [find] in H;
          repeat match type of H with
                 | context [matches ?n' ?k' (?a, ?b)] =>
                     let v := eval vm_compute in (String.eqb a n') in
                     change (matches n' k' (a, b)) with (v && true) in H
                 end;
          cbn [andb] in H; unfold_elaboration H
      | context [match find ?f ?l with _ => _ end] =>
          let r := fresh "r" in
          let E := fresh "E" in
          let n := fresh "n" in
          let k := fresh "k" in
          let Hn := fresh "Hn" in
          let Hk := fresh "Hk" in
          destruct (find f l) as [[n k]|] eqn:E;
          [apply find_request in E as (_ & Hn & Hk); cbn [fst snd] in Hn, Hk;
           try subst n; try subst k|];
          unfold_elaboration H
      | context [if Z.eqb ?x ?y then _ else _] =>
          destruct (Z.eqb_spec x y); [try contradiction|]; unfold_elaboration H
      end ].

Lemma ex_swap {A : Type} (P Q : A -> Prop) :
  (exists x, Q x /\ P x) -> exists x, P x /\ Q x.
Proof. intros (x & HQ & HP). exists x. split; assumption. Qed.

Lemma BaseSoC_elaborated (io : list resource) (a : args) (s : soc) :
  BaseSoC io a = Ok tt s ->
  exists p : pads,
    well_named a p
    /\ submodules s = expected_submodules a p
    /\ comb s = [(pad_debug p, pad_clk0 p)]
    /\ matched s = expected_matched a p
    /\ period_constraints s = (if with_jtagbone a then [("jtag_clk", 50)] else [])
    /\ platform_commands s
       = (if with_ethernet a
          then ["set_property SEVERITY {{Warning}} [get_drc_checks REQP-49]"]
          else []).
Proof.
  destruct a as [f wp lanes we sfp wj].
  intros H.
  destruct wp, we, wj; elaborate H.
  all: inversion H; subst; clear H.
  all: apply ex_swap; eexists (mkPads _ _ _ _ _ _ _ _ _ _ _).
  all: split;
    [split; [reflexivity|];
     split; [reflexivity|];
     split; [cbn [matched expected_matched with_pcie with_ethernet pad_clk100 pad_i2c
                  pad_pwm pad_leds pad_pcie pad_sfp pad_clk0 pad_clk1 pad_clk2 pad_clk3
                  pad_debug app];
             rewrite <- ?app_assoc; reflexivity|];
     split; reflexivity|].
  all: unfold well_named;
    cbn [with_pcie with_ethernet pcie_lanes ethernet_sfp pad_clk100 pad_i2c
         pad_pwm pad_leds pad_pcie pad_sfp pad_clk0 pad_clk1 pad_clk2 pad_clk3
         pad_debug fst].
  all: repeat match goal with
              | |- _ /\ _ => split
              | |- _ = _ => reflexivity
              | |- _ <> _ => discriminate
              | |- Forall _ _ => assumption
              | |- false = true -> _ => intros Hf; discriminate Hf
              | |- _ -> _ => intros _
              end.
  Unshelve.
  all: exact ("", 0).
Qed.





(** X6.  The only combinatorial assignment the composition adds drives
    the [debug] pad from [si5351_clk0], and what [lookup_request] hands
    back for it is the very pad that was requested for the first clock
    measurement. *)
Theorem debug_follows_clk0 (io : list resource) (a : args) (s : soc) :
  BaseSoC io a = Ok tt s ->
  exists dbg c0 : resource,
    comb s = [(dbg, c0)]
    /\ fst dbg = "debug" /\ fst c0 = "si5351_clk0"
    /\ In c0 (matched s)
    /\ forall m : ClkMeasurement,
         In ("si5351_clk0_measurement", m) (measurements s) -> measured_clk m = c0.
Proof.
  intros H.
  destruct (BaseSoC_elaborated io a s H) as (p & Hp & Hsub & Hcomb & Hm & _).
  destruct Hp as (_ & _ & _ & _ & _ & _ & _ & H4 & _ & _ & _ & H8).
  exists (pad_debug p), (pad_clk0 p).
  split; [exact Hcomb|]. split; [exact H8|]. split; [exact H4|]. split.
  - rewrite Hm. unfold expected_matched. rewrite !in_app_iff. cbn [In]. tauto.
  - intros m Hin. unfold measurements in Hin. rewrite Hsub in Hin.
    unfold expected_submodules in Hin.
    destruct (with_jtagbone a), (with_pcie a), (with_ethernet a);
      cbn [flat_map app snd fst] in Hin;
      repeat (destruct Hin as [Hin|Hin]; [inversion Hin; subst; try reflexivity|]);
      try contradiction.
Qed.

(** X7.  The CRG creates the [eth_ref] clock, 156.25 MHz with no
    margin, exactly when Ethernet is requested.  In that case the QPLL
    takes that clock as its reference, the PHY sits on the SFP cage
    numbered [ethernet_sfp] with the receive polarity inverted and the
    transmit polarity not, and one platform command is issued; without
    Ethernet there is no QPLL, no PHY and no platform command. *)
Theorem ethernet_backend_wiring (io : list resource) (a : args) (s : soc) :
  BaseSoC io a = Ok tt s ->
  map crg_eth_clkout (crgs s)
  = [if with_ethernet a then Some ("eth_ref", 156250000, 0) else None]
  /\ qplls s = (if with_ethernet a then [clk "eth_ref"] else [])
  /\ map (fun p => (data_pads p, rx_polarity p, tx_polarity p)) (ethphys s)
     = (if with_ethernet a then [(("sfp", ethernet_sfp a), 1, 0)] else [])
  /\ platform_commands s
     = (if with_ethernet a
        then ["set_property SEVERITY {{Warning}} [get_drc_checks REQP-49]"]
        else []).
Proof.
  intros H.
  destruct (BaseSoC_elaborated io a s H) as (p & Hp & Hsub & _ & _ & _ & Hcmd).
  destruct Hp as (_ & _ & _ & _ & _ & _ & Hsfp & _).
  unfold crgs, qplls, ethphys. rewrite Hsub, Hcmd. unfold expected_submodules.
  destruct (with_jtagbone a), (with_pcie a), (with_ethernet a);
    cbn [flat_map app snd map crg_eth_clkout data_pads rx_polarity tx_polarity];
    rewrite ?Hsfp by reflexivity; repeat split; reflexivity.
Qed.

(** X8.  The two placement commands that pin the transceiver channel
    are issued exactly when PCIe is requested with one lane; the
    composition issues fourteen pre-placement commands in that case,
    twelve for four lanes and none without PCIe. *)
Theorem loc_pinned_for_one_lane (io : list resource) (a : args) (s : soc) :
  BaseSoC io a = Ok tt s ->
  (In ResetPropertyLoc (pre_placement_commands s)
   <-> with_pcie a = true /\ pcie_lanes a = 1)
  /\ (In SetPropertyLoc (pre_placement_commands s)
      <-> with_pcie a = true /\ pcie_lanes a = 1)
  /\ List.length (pre_placement_commands s)
     = (if with_pcie a then if Z.eqb (pcie_lanes a) 1 then 14 else 12 else 0)%nat.
Proof.
  intros H.
  destruct (BaseSoC_design io a s H) as (_ & Hcmd & _).
  rewrite Hcmd. unfold expected_commands.
  destruct (with_pcie a); [|cbn; intuition discriminate].
  destruct (Z.eqb_spec (pcie_lanes a) 1) as [E|E]; cbn [app flat_map In List.length].
  - split; [|split; [|reflexivity]]; (split; [intros _; split; [reflexivity|exact E]|]);
      intros _; tauto.
  - split; [|split; [|reflexivity]];
      (split; [|intros [_ E']; contradiction]);
      intros Hin; exfalso;
      repeat (destruct Hin as [Hin|Hin]; [discriminate Hin|]); exact Hin.
Qed.


(** X10.  Every clock measurement of a composed SoC is built with the
    default increment: its 64-bit counter, once out of reset, advances
    by exactly one per edge of the measured clock, so that over any
    stretch of a run it grows by the number of counter edges modulo
    2^64. *)
Theorem measurement_counts_edges
        (io : list resource) (a : args) (s : soc) (m : ClkMeasurement)
        (pre post : list Gateware.event) :
  BaseSoC io a = Ok tt s ->
  In m (map snd (measurements s)) ->
  Gateware.released (Gateware.run (increment m) pre Gateware.power_on) = true ->
  Gateware.no_sys_rst post = true ->
  counter_width m = 64
  /\ Gateware.counter (Gateware.run (increment m) (pre ++ post) Gateware.power_on)
     = (Gateware.counter (Gateware.run (increment m) pre Gateware.power_on)
        + Z.of_nat (Gateware.counter_edges post)) mod 2 ^ 64.
Proof.
  intros H Hin Hrel Hno.
  destruct (BaseSoC_design io a s H) as (_ & _ & (c0 & c1 & c2 & c3 & Hm) & _).
  rewrite Hm in Hin. cbn [map snd In] in Hin.
  assert (Hinc : increment m = 1 /\ counter_width m = 64).
  { repeat (destruct Hin as [Hin|Hin]; [subst m; split; reflexivity|]). contradiction. }
  destruct Hinc as [Hinc Hw]. split; [exact Hw|].
  rewrite Hinc in *. rewrite GatewareFacts.run_app.
  destruct (GatewareFacts.counter_run 1 post (Gateware.run 1 pre Gateware.power_on) Hrel Hno)
    as [_ Hc].
  - apply (GatewareFacts.run_fits 1 pre Gateware.power_on).
    unfold Gateware.registers_fit, Gateware.fits64. cbn. lia.
  - rewrite Hc. f_equal. lia.
Qed.



(** *** Resources are conserved *)

Section Keeps.

Variable P : soc -> Prop.

Lemma keeps_ret {A : Type} (x : A) : keeps P (ret x).
Proof. intros s H. exact H. Qed.

Lemma keeps_raise {A : Type} (e : exn) : keeps P (@raise soc A e).
Proof. intros s H. exact H. Qed.

Lemma keeps_get : keeps P get.
Proof. intros s H. exact H. Qed.

Lemma keeps_bind {A B : Type} (c : M soc A) (k : A -> M soc B) :
  keeps P c -> (forall x : A, keeps P (k x)) -> keeps P (bind c k).
Proof.
  intros Hc Hk s H. unfold bind. specialize (Hc s H).
  destruct (c s) as [x s'|e s']; cbn [final] in *; [apply Hk, Hc|exact Hc].
Qed.

Lemma keeps_when (b : bool) (c : M soc unit) : keeps P c -> keeps P (when b c).
Proof. intros Hc. destruct b; [exact Hc|apply keeps_ret]. Qed.

Lemma keeps_for_each (l : list Z) (body : Z -> M soc unit) :
  (forall i : Z, keeps P (body i)) -> keeps P (for_each l body).
Proof.
  intros Hb. induction l as [|i l IH]; cbn [for_each]; [apply keeps_ret|].
  apply keeps_bind; [apply Hb|intros _; exact IH].
Qed.

End Keeps.

Section Conserved.

Variable io : list resource.

Lemma remove_first_found (name : string) (number : option Z) (l : list resource)
      (r : resource) :
  find (matches name number) l = Some r ->
  Permutation (r :: remove_first name number l) l.
Proof.
  induction l as [|x l IH]; cbn [find remove_first]; [discriminate|].
  destruct (matches name number x).
  - intros H. inversion H; subst. apply Permutation_refl.
  - intros H. apply perm_trans with (x :: r :: remove_first name number l).
    + apply perm_swap.
    + apply perm_skip, IH, H.
Qed.

Lemma keeps_request (name : string) (number : option Z) :
  keeps (conserved io) (request name number).
Proof.
  intros s H. unfold request.
  destruct (find _ (available s)) as [r|] eqn:E; cbn [final]; [|exact H].
  unfold conserved in *. cbn [available matched].
  apply perm_trans with ((r :: remove_first name number (available s)) ++ matched s)%list.
  - rewrite app_assoc. cbn [app]. apply Permutation_sym, Permutation_cons_append.
  - apply perm_trans with (available s ++ matched s)%list; [|exact H].
    apply Permutation_app_tail, remove_first_found, E.
Qed.

Lemma keeps_lookup_request (name : string) (number : option Z) :
  keeps (conserved io) (lookup_request name number).
Proof.
  intros s H. unfold lookup_request.
  destruct (find _ (matched s)); exact H.
Qed.

Lemma keeps_request_all_loop (fuel : nat) (name : string) :
  forall r : list resource, keeps (conserved io) (request_all_loop fuel name r).
Proof.
  induction fuel as [|fuel IH]; intros r s H; [exact H|].
  cbn [request_all_loop].
  pose proof (keeps_request name (Some (Z.of_nat (List.length r))) s H) as Hr.
  destruct (request name _ s) as [x s'|e s']; cbn [final] in *; [|exact H].
  apply IH, Hr.
Qed.

Lemma keeps_request_all (name : string) : keeps (conserved io) (request_all name).
Proof.
  unfold request_all. apply keeps_bind; [apply keeps_get|intros s0].
  apply keeps_bind; [apply keeps_request_all_loop|intros r].
  destruct r; [apply keeps_raise|apply keeps_ret].
Qed.

(** What leaves the resource manager alone keeps the invariant. *)
Lemma keeps_modify (f : soc -> soc) :
  (forall s : soc, available (f s) = available s /\ matched (f s) = matched s) ->
  keeps (conserved io) (modify f).
Proof.
  intros Hf s H. unfold modify, conserved in *. cbn [final].
  destruct (Hf s) as [Ha Hm]. rewrite Ha, Hm. exact H.
Qed.

Ltac keeps_step :=
  lazymatch goal with
  | |- keeps _ (request _ _) => apply keeps_request
  | |- keeps _ (lookup_request _ _) => apply keeps_lookup_request
  | |- keeps _ (request_all _) => apply keeps_request_all
  | |- keeps _ (ret _) => apply keeps_ret
  | |- keeps _ (raise _) => apply keeps_raise
  | |- keeps _ (modify _) => apply keeps_modify; intros ?; split; reflexivity
  | |- keeps _ (when _ _) => apply keeps_when
  | |- keeps _ (for_each _ _) => apply keeps_for_each; intros ?
  | |- keeps _ (bind _ _) => apply keeps_bind; [|intros ?]
  | |- keeps _ (if ?b then _ else _) => destruct b
  end.

Lemma keeps_BaseSoC_init (a : args) : keeps (conserved io) (BaseSoC_init a).
Proof.
  unfold BaseSoC_init, CRG_init, pcie, etherbone, add_clk_measurement, clock_groups,
    data_width_of, add_module, add_period_constraint, add_false_path_constraints,
    pre_placement_append, add_platform_command, update_config, add_comb.
  repeat keeps_step.
Qed.

(** X12.  However a composition ends, with a SoC or with an exception,
    the pads of the platform are then either still available or
    matched, each exactly as often as the platform lists it: no request
    loses a pad or hands one out twice.  On a platform that lists no pad
    twice, no pad is matched twice. *)
Theorem resources_conserved (a : args) :
  Permutation (available (composed io a) ++ matched (composed io a))%list io
  /\ (NoDup io -> NoDup (matched (composed io a))).
Proof.
  assert (H : conserved io (composed io a)).
  { change (composed io a) with (final (BaseSoC_init a (Platform io))).
    apply keeps_BaseSoC_init. unfold conserved, Platform. cbn [available matched].
    rewrite app_nil_r. apply Permutation_refl. }
  split; [exact H|].
  intros Hnd. apply (Permutation_NoDup (Permutation_sym H)) in Hnd.
  apply NoDup_app_remove_l in Hnd. exact Hnd.
Qed.

End Conserved.

(** *** The command line *)

Section MainFacts.

Variable parse_optional : string -> token.
Variable int : string -> option Z.

Local Abbreviation consume := (consume int).
Local Abbreviation consumes := (consumes int).
Local Abbreviation classify := (classify parse_optional).
Local Abbreviation parse_args := (parse_args parse_optional int).
Local Abbreviation main := (main parse_optional int).

(** A word no option takes is remembered to the end. *)
Lemma consume_extras (n : nat) :
  forall (toks : list (string * token)) (ns ns' : namespace),
    (List.length toks <= n)%nat ->
    consume toks ns true <> Parsed ns'.
Proof.
  induction n as [|n IH]; intros toks ns ns' Hlen.
  - destruct toks; [discriminate|simpl in Hlen; lia].
  - destruct toks as [|[w t] rest]; [discriminate|].
    simpl in Hlen.
    destruct t as [a explicit_arg| | | |]; cbn [Compose.consume];
      try discriminate; try (apply IH; lia).
    destruct a; try (destruct explicit_arg; discriminate);
      try (destruct explicit_arg; [discriminate|];
           destruct (conflicts _ ns); [discriminate|apply IH; lia]).
    destruct explicit_arg as [v|].
    + destruct (sfp_value int v); [apply IH; lia|discriminate].
    + destruct rest as [|[v t] rest']; [discriminate|].
      destruct t; try discriminate.
      destruct (sfp_value int v); [apply IH; simpl in Hlen; lia|discriminate].
Qed.

Lemma consume_consumes (n : nat) :
  forall (toks : list (string * token)) (ns ns' : namespace) (extras : bool),
    (List.length toks <= n)%nat ->
    consume toks ns extras = Parsed ns' ->
    extras = false /\ consumes toks ns ns'.
Proof.
  induction n as [|n IH]; intros toks ns ns' extras Hlen H.
  - destruct toks; [|simpl in Hlen; lia].
    cbn in H. destruct extras; [discriminate|]. inversion H; subst.
    split; [reflexivity|constructor].
  - destruct toks as [|[w t] rest].
    + cbn in H. destruct extras; [discriminate|]. inversion H; subst.
      split; [reflexivity|constructor].
    + simpl in Hlen.
      destruct t as [a explicit_arg| | | |]; cbn [Compose.consume] in H;
        try discriminate;
        try (exfalso; exact (consume_extras n rest ns ns' ltac:(lia) H)).
      destruct a;
        try (destruct explicit_arg; discriminate);
        try (destruct explicit_arg; [discriminate|];
             destruct (conflicts _ ns) eqn:Hc; [discriminate|];
             apply IH in H; [|lia]; destruct H as [He H];
             split; [exact He|]; apply consumes_flag; [reflexivity|exact Hc|exact H]).
      destruct explicit_arg as [v|].
      * destruct (sfp_value int v) as [k|] eqn:Hv; [|discriminate].
        apply IH in H; [|lia]. destruct H as [He H].
        split; [exact He|]. eapply consumes_sfp_attached; eassumption.
      * destruct rest as [|[v t] rest']; [discriminate|].
        destruct t; try discriminate.
        destruct (sfp_value int v) as [k|] eqn:Hv; [|discriminate].
        apply IH in H; [|simpl in Hlen; lia]. destruct H as [He H].
        split; [exact He|]. eapply consumes_sfp_next; eassumption.
Qed.

Lemma consumes_consume (toks : list (string * token)) (ns ns' : namespace) :
  consumes toks ns ns' -> consume toks ns false = Parsed ns'.
Proof.
  induction 1 as [ns|w a rest ns ns' Ha Hc _ IH|w v k rest ns ns' Hv _ IH
                  |w v k rest ns ns' Hv _ IH].
  - reflexivity.
  - cbn [Compose.consume]. rewrite Hc.
    destruct a; try discriminate Ha; exact IH.
  - cbn [Compose.consume]. rewrite Hv. exact IH.
  - cbn [Compose.consume]. rewrite Hv. exact IH.
Qed.

Lemma parse_args_consumes (argv : list string) (ns : namespace) :
  parse_args argv = Parsed ns -> consumes (classify argv) namespace_defaults ns.
Proof.
  unfold Compose.parse_args. intros H.
  destruct (existsb is_ambiguous (classify argv)); [discriminate|].
  apply (consume_consumes _ _ _ _ _ (le_n _) H).
Qed.

(** X13.  [parse_args] returns a namespace exactly for the command lines
    that hold no ambiguous abbreviation and consist, word by word, of
    flags other than help, neither backend flag after the other one, and
    of [--ethernet-sfp] with a value among its choices, attached or
    given as the next word; the namespace is the one those words
    store. *)
Theorem parse_args_accepts (argv : list string) (ns : namespace) :
  parse_args argv = Parsed ns
  <-> existsb is_ambiguous (classify argv) = false
      /\ consumes (classify argv) namespace_defaults ns.
Proof.
  unfold Compose.parse_args. split.
  - intros H. destruct (existsb is_ambiguous (classify argv)); [discriminate|].
    split; [reflexivity|].
    apply (consume_consumes _ _ _ _ _ (le_n _) H).
  - intros [Ha H]. rewrite Ha. apply consumes_consume, H.
Qed.

Lemma store_true_flag (a b : action) (ns : namespace) :
  is_store_true b = true ->
  flag a (store_true b ns) = flag a ns || action_eqb a b.
Proof.
  destruct a, b; try discriminate; intros _; cbn;
    rewrite ?orb_false_r, ?orb_true_r; reflexivity.
Qed.

Lemma consumes_flags (toks : list (string * token)) (ns ns' : namespace) :
  consumes toks ns ns' ->
  (forall a : action,
      is_store_true a = true -> flag a ns' = flag a ns || existsb (selects a) toks)
  /\ (ns_ethernet_sfp ns = 0 \/ ns_ethernet_sfp ns = 1 ->
      ns_ethernet_sfp ns' = 0 \/ ns_ethernet_sfp ns' = 1)
  /\ existsb (selects Help) toks = false.
Proof.
  induction 1 as [ns|w b rest ns ns' Hb Hc _ IH|w v k rest ns ns' Hv _ IH
                  |w v k rest ns ns' Hv _ IH].
  - split; [intros a _; cbn; rewrite orb_false_r; reflexivity|].
    split; [tauto|reflexivity].
  - destruct IH as (IH1 & IH2 & IH3). split; [|split].
    + intros a Ha. rewrite (IH1 a Ha), store_true_flag by exact Hb.
      cbn [existsb selects snd]. rewrite orb_assoc. reflexivity.
    + intros Hs. apply IH2. destruct b; exact Hs.
    + cbn [existsb selects snd]. rewrite IH3. destruct b; try discriminate Hb; reflexivity.
  - destruct IH as (IH1 & IH2 & IH3). split; [|split].
    + intros a Ha. rewrite (IH1 a Ha). cbn [existsb selects snd].
      destruct a; try discriminate Ha; reflexivity.
    + intros _. apply IH2. cbn [store_sfp ns_ethernet_sfp].
      unfold sfp_value in Hv. destruct (int v) as [m|]; [|discriminate].
      destruct (Z.eqb_spec m 0); [inversion Hv; subst; tauto|].
      destruct (Z.eqb_spec m 1); [inversion Hv; subst; tauto|discriminate].
    + cbn [existsb selects snd action_eqb orb]. exact IH3.
  - destruct IH as (IH1 & IH2 & IH3). split; [|split].
    + intros a Ha. rewrite (IH1 a Ha). cbn [existsb selects snd].
      destruct a; try discriminate Ha; reflexivity.
    + intros _. apply IH2. cbn [store_sfp ns_ethernet_sfp].
      unfold sfp_value in Hv. destruct (int v) as [m|]; [|discriminate].
      destruct (Z.eqb_spec m 0); [inversion Hv; subst; tauto|].
      destruct (Z.eqb_spec m 1); [inversion Hv; subst; tauto|discriminate].
    + cbn [existsb selects snd action_eqb orb]. exact IH3.
Qed.

(** X14.  In the namespace [parse_args] returns, [build], [load],
    [flash] and [driver] are set exactly when the corresponding option
    is among the words of the command line, and [ethernet_sfp] is 0 or
    1. *)
Theorem flags_follow_options (argv : list string) (ns : namespace) :
  parse_args argv = Parsed ns ->
  ns_build ns = existsb (selects Build) (classify argv)
  /\ ns_load ns = existsb (selects Load) (classify argv)
  /\ ns_flash ns = existsb (selects Flash) (classify argv)
  /\ ns_driver ns = existsb (selects Driver) (classify argv)
  /\ (ns_ethernet_sfp ns = 0 \/ ns_ethernet_sfp ns = 1).
Proof.
  intros H. apply parse_args_consumes in H.
  apply consumes_flags in H as (Hf & Hs & _).
  pose proof (Hf Build eq_refl) as H1. pose proof (Hf Load eq_refl) as H2.
  pose proof (Hf Flash eq_refl) as H3. pose proof (Hf Driver eq_refl) as H4.
  cbn [flag namespace_defaults ns_build ns_load ns_flash ns_driver orb] in *.
  repeat split; try assumption. apply Hs. left; reflexivity.
Qed.

Lemma consume_help (n : nat) :
  forall (toks : list (string * token)) (ns : namespace) (extras : bool),
    (List.length toks <= n)%nat ->
    consume toks ns extras = HelpExit ->
    existsb (selects Help) toks = true.
Proof.
  induction n as [|n IH]; intros toks ns extras Hlen H.
  - destruct toks; [|simpl in Hlen; lia]. cbn in H. destruct extras; discriminate.
  - destruct toks as [|[w t] rest]; [cbn in H; destruct extras; discriminate|].
    simpl in Hlen.
    destruct t as [a explicit_arg| | | |]; cbn [Compose.consume] in H;
      try discriminate;
      try (cbn [existsb selects snd orb]; apply IH in H; [exact H|lia]).
    destruct a;
      try reflexivity;
      try (destruct explicit_arg; [discriminate|];
           destruct (conflicts _ ns); [discriminate|];
           cbn [existsb selects snd action_eqb orb]; apply IH in H; [exact H|lia]).
    destruct explicit_arg as [v|].
    + destruct (sfp_value int v); [|discriminate].
      cbn [existsb selects snd action_eqb orb]. apply IH in H; [exact H|lia].
    + destruct rest as [|[v t] rest']; [discriminate|].
      destruct t; try discriminate.
      destruct (sfp_value int v); [|discriminate].
      cbn [existsb selects snd action_eqb orb]. apply IH in H; [exact H|simpl in Hlen; lia].
Qed.

(** X15.  [main] exits from the parser with code 0 or 2 only, with 0
    only when help was asked for; and whenever help is among the words,
    [main] exits without calling [BaseSoC]. *)
Theorem main_exits (io : list resource) (argv : list string) :
  (forall code : Z,
      main io argv = SystemExit code ->
      code = 2 \/ (code = 0 /\ existsb (selects Help) (classify argv) = true))
  /\ (existsb (selects Help) (classify argv) = true ->
      exists code : Z, main io argv = SystemExit code).
Proof.
  unfold Compose.main. split.
  - intros code H.
    destruct (parse_args argv) as [ns| |] eqn:Hp.
    + destruct (BaseSoC io _) as [[] s|e s]; discriminate.
    + inversion H; subst. right. split; [reflexivity|].
      unfold Compose.parse_args in Hp.
      destruct (existsb is_ambiguous (classify argv)); [discriminate|].
      apply (consume_help _ _ _ _ (le_n _) Hp).
    + inversion H; subst. left; reflexivity.
  - intros Hh.
    destruct (parse_args argv) as [ns| |] eqn:Hp; [|eauto|eauto].
    apply parse_args_consumes in Hp.
    apply consumes_flags in Hp as (_ & _ & Hn). congruence.
Qed.

(** X16.  [main] passes only the two backend flags and the SFP number
    to [BaseSoC].  A SoC it hands to the builder therefore has JTAGBone
    and a system clock of 125 MHz, its PCIe PHY, if any, is the one-lane
    one, 64 bits wide with its transceiver pinned, and its Ethernet PHY,
    if any, sits on the SFP cage named on the command line, cage 0 or
    cage 1. *)
Theorem main_builds_with_defaults (io : list resource) (argv : list string)
        (ns : namespace) (s : soc) :
  main io argv = Built ns s ->
  has_module "jtagbone" s = true
  /\ map crg_clkouts (crgs s) = [[("sys", 125000000); ("idelay", 200000000)]]
  /\ map data_width (pcie_phys s) = (if ns_with_pcie ns then [64] else [])
  /\ (In SetPropertyLoc (pre_placement_commands s) <-> ns_with_pcie ns = true)
  /\ map data_pads (ethphys s)
     = (if ns_with_ethernet ns then [("sfp", ns_ethernet_sfp ns)] else [])
  /\ (ns_ethernet_sfp ns = 0 \/ ns_ethernet_sfp ns = 1).
Proof.
  unfold Compose.main. intros H.
  destruct (parse_args argv) as [ns0| |] eqn:Hparse; try discriminate.
  destruct (BaseSoC io _) as [[] s0|e s0] eqn:Hsoc; [|discriminate].
  inversion H; subst. clear H.
  destruct (BaseSoC_elaborated _ _ _ Hsoc) as (p & Hp & Hsub & _).
  destruct (BaseSoC_design _ _ _ Hsoc) as (_ & Hcmd & _).
  destruct Hp as (_ & _ & _ & _ & _ & _ & Hsfp & _).
  apply parse_args_consumes in Hparse.
  apply consumes_flags in Hparse as (_ & Hs & _).
  unfold has_module, crgs, pcie_phys, ethphys. rewrite Hsub, Hcmd.
  unfold expected_submodules, expected_commands.
  cbn [with_pcie with_ethernet with_jtagbone pcie_lanes sys_clk_freq ethernet_sfp
       defaults] in *.
  destruct (ns_with_pcie ns), (ns_with_ethernet ns);
    cbn [flat_map app snd map crg_clkouts data_width data_pads existsb fst In Z.eqb
         Pos.eqb];
    rewrite ?Hsfp by reflexivity;
    (split; [reflexivity|]); (split; [reflexivity|]); (split; [reflexivity|]);
    (split; [|split; [reflexivity|apply Hs; left; reflexivity]]);
    (split; [intros Hin; try reflexivity; try contradiction|intros Ht; try discriminate Ht; tauto]).
Qed.

End MainFacts.

(** *** Instances of the above *)


Lemma debug_follows_clk0_witness :
  exists dbg c0 : resource,
    comb (composed board_io defaults) = [(dbg, c0)]
    /\ fst dbg = "debug" /\ fst c0 = "si5351_clk0".
Proof.
  destruct (debug_follows_clk0 board_io defaults (composed board_io defaults)
              defaults_compose) as (dbg & c0 & H1 & H2 & H3 & _).
  exists dbg, c0. repeat split; assumption.
Defined.

Lemma ethernet_backend_wiring_witness :
  qplls (composed board_io defaults) = [clk "eth_ref"]
  /\ map (fun p => (data_pads p, rx_polarity p, tx_polarity p))
         (ethphys (composed board_io defaults)) = [(("sfp", 0), 1, 0)].
Proof.
  destruct (ethernet_backend_wiring board_io defaults (composed board_io defaults)
              defaults_compose) as (_ & H1 & H2 & _).
  split; assumption.
Defined.

Lemma loc_pinned_for_one_lane_witness :
  List.length (pre_placement_commands (composed board_io defaults)) = 14%nat.
Proof.
  apply (loc_pinned_for_one_lane board_io defaults (composed board_io defaults)
           defaults_compose).
Defined.


Lemma measurement_counts_edges_witness :
  Gateware.counter
    (Gateware.run 1 (Gateware.latch_pending ++ [Gateware.CounterEdge; Gateware.CounterEdge])
                  Gateware.power_on) = 7.
Proof.
  destruct (measurement_counts_edges board_io defaults (composed board_io defaults)
              (ClkMeasurement_init "si5351_clk0_measurement" ("si5351_clk0", 0) 1)
              Gateware.latch_pending [Gateware.CounterEdge; Gateware.CounterEdge]
              defaults_compose)
    as [_ H]; [vm_compute; left; reflexivity|reflexivity|reflexivity|].
  exact H.
Defined.


(** [--build --with-ethernet --ethernet-sfp 1] on the command line. *)
Lemma main_builds_ethernet :
  main parse_optional int_decimal board_io
       ["--build"; "--with-ethernet"; "--ethernet-sfp"; "1"]
  = Built (mkNamespace true false false false false true 1)
          (composed board_io (mkArgs 125000000 false 1 true 1 true)).
Proof. vm_compute. reflexivity. Qed.

Lemma parse_args_builds_ethernet :
  parse_args parse_optional int_decimal
             ["--build"; "--with-ethernet"; "--ethernet-sfp"; "1"]
  = Parsed (mkNamespace true false false false false true 1).
Proof. vm_compute. reflexivity. Qed.

Lemma flags_follow_options_witness :
  existsb (selects Build)
          (classify parse_optional ["--build"; "--with-ethernet"; "--ethernet-sfp"; "1"])
  = true.
Proof.
  destruct (flags_follow_options parse_optional int_decimal _ _ parse_args_builds_ethernet)
    as (H & _).
  symmetry. exact H.
Defined.

Lemma main_builds_with_defaults_witness :
  map data_pads (ethphys (composed board_io (mkArgs 125000000 false 1 true 1 true)))
  = [("sfp", 1)].
Proof.
  destruct (main_builds_with_defaults parse_optional int_decimal board_io _ _ _
              main_builds_ethernet) as (_ & _ & _ & _ & H & _).
  exact H.
Defined.

End ComposeFacts.
